(** * The dual-clock engine of [public/js/app.js]

    A shallow embedding of the timer widget's clock engine (the variant of
    [app.js] without the moving-average display) and the properties its
    specification states about it.

    Modelling conventions.
    - JavaScript numbers held by the engine are exact rationals ([Q]); the
      rounding of IEEE doubles is outside the model.  Values arriving from
      outside (input fields, the player) are [Num]s and may be infinite or NaN.
      Equality of rationals is [==] ([Qeq]).
    - Every handler runs within one reading of the monotonic clock: each
      [performance.now()] of one handler invocation returns the same [now].
    - The falsy timestamp [0] is the source's "no baseline" marker for
      [lastTickUpdateMs]; it is kept as such.
    - Handlers return the new state together with the calls they issued to the
      player, in order. *)

From Stdlib Require Import QArith Qround Qminmax Lqa ZArith Lia Bool String List.
From Stdlib Require DecimalString.
Import ListNotations.
Open Scope Q_scope.

(** Besides the engine the file covers the display helpers of [app.js]
    ([pad], [formatMs], [computeTicks], the calculated clock), the moving
    average that the other variant of [app.js] shows, and the [TickConverter]
    object of [FiveM_Tick_Converter.js]. *)

(** ** Values *)

(** A JavaScript number as produced by [Number(...)]. *)
Inductive Num : Type :=
| Fin (q : Q)
| PInf
| NInf
| NaN.

(** An upper limit that may be [Infinity]. *)
Inductive Bound : Type :=
| Finite (q : Q)
| Infinity.

Definition Qlt_bool (a b : Q) : bool := negb (Qle_bool b a).

Module Math.

Definition max (a b : Q) : Q := Qmax a b.

Definition min (a b : Q) : Q := Qmin a b.

Definition floor (x : Q) : Z := Qfloor x.

(** [Math.round] rounds halves towards plus infinity. *)
Definition round (x : Q) : Z := Qfloor (x + (1 # 2)).

(** [Math.min(max, v)] where [max] may be [Infinity]. *)
Definition min_bound (b : Bound) (v : Q) : Q :=
  match b with
  | Finite m => Qmin m v
  | Infinity => v
  end.

End Math.

Definition DEFAULT_FPS : Q := 60.

(** ** The player collaborator and the page *)

(** What a method of the player object does when the engine reaches for it. *)
Inductive Reply : Type :=
| Absent
| Throws
| Returns (v : Num).

Record Player : Type := mkPlayer {
  getCurrentTime : Reply;
  getDuration : Reply;
  seekTo : bool;
  playVideo : bool;
  pauseVideo : bool
}.

Inductive PlayerCall : Type :=
| CallGetCurrentTime
| CallGetDuration
| CallSeekTo (seconds : Q)
| CallPlayVideo
| CallPauseVideo.

(** The surroundings of one handler invocation: the player as it answers now,
    whether the [calculatedTime] element exists, and [Number(fpsInput.value)]
    when the [fpsInput] element exists. *)
Record Env : Type := mkEnv {
  player : option Player;
  calculatedTime : bool;
  fpsInput : option Num
}.

(** ** Engine state: the module-level variables *)

Record ClockState : Type := mkState {
  accumulatedMs : Q;
  lastStartMs : Q;
  running : bool;
  rafId : bool;            (* a frame request is held (non-zero handle) *)
  appliedFps : Q;
  lastShownTick : Z;
  tickCount : Z;
  tickAccumMs : Q;
  lastTickUpdateMs : Q
}.

Definition set_accumulatedMs (v : Q) (s : ClockState) : ClockState :=
  mkState v (lastStartMs s) (running s) (rafId s) (appliedFps s)
          (lastShownTick s) (tickCount s) (tickAccumMs s) (lastTickUpdateMs s).
Definition set_lastStartMs (v : Q) (s : ClockState) : ClockState :=
  mkState (accumulatedMs s) v (running s) (rafId s) (appliedFps s)
          (lastShownTick s) (tickCount s) (tickAccumMs s) (lastTickUpdateMs s).
Definition set_running (v : bool) (s : ClockState) : ClockState :=
  mkState (accumulatedMs s) (lastStartMs s) v (rafId s) (appliedFps s)
          (lastShownTick s) (tickCount s) (tickAccumMs s) (lastTickUpdateMs s).
Definition set_rafId (v : bool) (s : ClockState) : ClockState :=
  mkState (accumulatedMs s) (lastStartMs s) (running s) v (appliedFps s)
          (lastShownTick s) (tickCount s) (tickAccumMs s) (lastTickUpdateMs s).
Definition set_appliedFps (v : Q) (s : ClockState) : ClockState :=
  mkState (accumulatedMs s) (lastStartMs s) (running s) (rafId s) v
          (lastShownTick s) (tickCount s) (tickAccumMs s) (lastTickUpdateMs s).
Definition set_lastShownTick (v : Z) (s : ClockState) : ClockState :=
  mkState (accumulatedMs s) (lastStartMs s) (running s) (rafId s) (appliedFps s)
          v (tickCount s) (tickAccumMs s) (lastTickUpdateMs s).
Definition set_tickCount (v : Z) (s : ClockState) : ClockState :=
  mkState (accumulatedMs s) (lastStartMs s) (running s) (rafId s) (appliedFps s)
          (lastShownTick s) v (tickAccumMs s) (lastTickUpdateMs s).
Definition set_tickAccumMs (v : Q) (s : ClockState) : ClockState :=
  mkState (accumulatedMs s) (lastStartMs s) (running s) (rafId s) (appliedFps s)
          (lastShownTick s) (tickCount s) v (lastTickUpdateMs s).
Definition set_lastTickUpdateMs (v : Q) (s : ClockState) : ClockState :=
  mkState (accumulatedMs s) (lastStartMs s) (running s) (rafId s) (appliedFps s)
          (lastShownTick s) (tickCount s) (tickAccumMs s) v.

(** The variables as the script declares them. *)
Definition initial : ClockState :=
  {| accumulatedMs := 0; lastStartMs := 0; running := false; rafId := false;
     appliedFps := DEFAULT_FPS; lastShownTick := (-1)%Z;
     tickCount := 0%Z; tickAccumMs := 0; lastTickUpdateMs := 0 |}.

(** ** The handlers *)

(** [accumulatedMs + (running ? (now - lastStartMs) : 0)] *)
Definition elapsed (now : Q) (s : ClockState) : Q :=
  accumulatedMs s + (if running s then now - lastStartMs s else 0).

(** [1000 / Math.max(1, appliedFps)] *)
Definition msPerTick (s : ClockState) : Q :=
  1000 / Math.max 1 (appliedFps s).

(** The tick-advance block of [updateUi]. *)
Definition advanceTicks (now : Q) (s : ClockState) : ClockState :=
  if running s then
    let s1 := if Qeq_bool (lastTickUpdateMs s) 0
              then set_lastTickUpdateMs now s else s in
    let delta := now - lastTickUpdateMs s1 in
    let s2 := set_lastTickUpdateMs now s1 in
    let s3 := set_tickAccumMs (tickAccumMs s2 + delta) s2 in
    let m := msPerTick s3 in
    if Qle_bool m (tickAccumMs s3) then
      let newTicks := Math.floor (tickAccumMs s3 / m) in
      let s4 := set_tickCount (tickCount s3 + newTicks)%Z s3 in
      set_tickAccumMs (tickAccumMs s4 - inject_Z newTicks * m) s4
    else s3
  else set_lastTickUpdateMs 0 s.

(** The calculated-clock block of [updateUi]: the cache follows [tickCount]
    when the element exists. *)
Definition refreshCalculated (e : Env) (s : ClockState) : ClockState :=
  if calculatedTime e then
    if Z.eqb (tickCount s) (lastShownTick s) then s
    else set_lastShownTick (tickCount s) s
  else s.

Definition updateUi (e : Env) (now : Q) (s : ClockState) : ClockState :=
  refreshCalculated e (advanceTicks now s).

(** The frame callback. *)
Definition tick (e : Env) (now : Q) (s : ClockState) : ClockState :=
  let s1 := updateUi e now s in
  if running s1 then set_rafId true s1 else s1.

Definition callPlayVideo (e : Env) : list PlayerCall :=
  match player e with
  | Some p => if playVideo p then [CallPlayVideo] else []
  | None => []
  end.

Definition callPauseVideo (e : Env) : list PlayerCall :=
  match player e with
  | Some p => if pauseVideo p then [CallPauseVideo] else []
  | None => []
  end.

Definition callSeekTo (e : Env) (seconds : Q) : list PlayerCall :=
  match player e with
  | Some p => if seekTo p then [CallSeekTo seconds] else []
  | None => []
  end.

Definition play (e : Env) (now : Q) (s : ClockState)
  : ClockState * list PlayerCall :=
  let s1 :=
    if running s then s
    else set_rafId true
           (set_running true
              (set_lastTickUpdateMs now (set_lastStartMs now s))) in
  (updateUi e now s1, callPlayVideo e).

Definition stop (e : Env) (now : Q) (s : ClockState)
  : ClockState * list PlayerCall :=
  let s1 :=
    if running s then
      set_rafId false
        (set_running false
           (set_accumulatedMs (accumulatedMs s + (now - lastStartMs s)) s))
    else s in
  (updateUi e now s1, callPauseVideo e).

Definition reset (e : Env) (now : Q) (s : ClockState)
  : ClockState * list PlayerCall :=
  let s1 := set_running true (set_lastStartMs now (set_accumulatedMs 0 s)) in
  let s2 := set_lastTickUpdateMs now
              (set_tickAccumMs 0 (set_tickCount 0%Z s1)) in
  let s3 := set_rafId true (set_lastShownTick (-1)%Z s2) in
  (updateUi e now s3, callSeekTo e 0 ++ callPlayVideo e).

(** [Math.max(min, Math.min(max, v))] *)
Definition clamp (v min : Q) (max : Bound) : Q :=
  Math.max min (Math.min_bound max v).

(** [direction !== -1 && direction !== 1] is false *)
Definition isDirection (d : Q) : bool :=
  Qeq_bool d (-1) || Qeq_bool d 1.

(** The player's position when it answers with a finite number, the wall
    clock's otherwise. *)
Definition playerCurrentSec (e : Env) (wallCurrentSec : Q) : Q :=
  match player e with
  | Some p =>
      match getCurrentTime p with
      | Returns (Fin c) => c
      | _ => wallCurrentSec
      end
  | None => wallCurrentSec
  end.

(** The player's duration when it answers with a finite positive number. *)
Definition durationSec (e : Env) : Bound :=
  match player e with
  | Some p =>
      match getDuration p with
      | Returns (Fin d) => if Qlt_bool 0 d then Finite d else Infinity
      | _ => Infinity
      end
  | None => Infinity
  end.

Definition queryCalls (e : Env) : list PlayerCall :=
  match player e with
  | Some p =>
      (match getCurrentTime p with Absent => [] | _ => [CallGetCurrentTime] end)
      ++ (match getDuration p with Absent => [] | _ => [CallGetDuration] end)
  | None => []
  end.

(** The body of [skipBy] once [numeric] and [direction] passed the guard. *)
Definition skipValid (e : Env) (now : Q) (numeric : Q) (unit : string)
    (direction : Q) (s : ClockState) : ClockState * list PlayerCall :=
  let isTicks := String.eqb unit "ticks" in
  let requestedSec :=
    if isTicks then numeric / Math.max 1 DEFAULT_FPS else numeric in
  let deltaSec := direction * requestedSec in
  let wallCurrentSec := elapsed now s / 1000 in
  let current := playerCurrentSec e wallCurrentSec in
  let duration := durationSec e in
  let targetPlayerSec := clamp (current + deltaSec) 0 duration in
  let actualJumpedSec := targetPlayerSec - current in
  let rate := if isTicks then DEFAULT_FPS else appliedFps s in
  let jumpTicks := Math.round (actualJumpedSec * rate) in
  let s1 :=
    if Z.eqb jumpTicks 0 then s
    else set_lastShownTick (-1)%Z
           (set_tickCount (Z.max 0 (tickCount s + jumpTicks)) s) in
  let durationMs :=
    match duration with
    | Finite d => Finite (d * 1000)
    | Infinity => Infinity
    end in
  let jumpMs := actualJumpedSec * 1000 in
  let s2 :=
    if running s1 then
      let maxAccum :=
        match durationMs with
        | Finite dm => Finite (Math.max 0 (dm - (now - lastStartMs s1)))
        | Infinity => Infinity
        end in
      set_lastTickUpdateMs now
        (set_accumulatedMs (clamp (accumulatedMs s1 + jumpMs) 0 maxAccum) s1)
    else
      set_lastTickUpdateMs 0
        (set_accumulatedMs (clamp (accumulatedMs s1 + jumpMs) 0 durationMs) s1) in
  (updateUi e now s2, queryCalls e ++ callSeekTo e targetPlayerSec).

(** [skipBy(amount, unit, direction)]; [amount] is [Number(amount)]. *)
Definition skipBy (e : Env) (now : Q) (amount : Num) (unit : string)
    (direction : Num) (s : ClockState) : ClockState * list PlayerCall :=
  match amount, direction with
  | Fin numeric, Fin d =>
      if Qlt_bool numeric 0 || negb (isDirection d) then (s, [])
      else skipValid e now numeric unit d s
  | _, _ => (s, [])
  end.

(** [commitAppliedFps()]: the new state and the handler's boolean result. *)
Definition commitAppliedFps (e : Env) (now : Q) (s : ClockState)
  : ClockState * bool :=
  match fpsInput e with
  | None => (s, false)
  | Some (Fin v) =>
      if Qlt_bool 0 v then
        let s1 := set_tickAccumMs 0 (set_appliedFps v s) in
        let s2 := set_lastTickUpdateMs (if running s1 then now else 0) s1 in
        let s3 := set_lastShownTick (-1)%Z s2 in
        (updateUi e now s3, true)
      else (s, false)
  | Some _ => (s, false)
  end.

(** The page-load handler: [appliedFps = Number(fpsInput.value) || DEFAULT_FPS],
    the tick state zeroed, first render.  An infinite starting value has no
    rational counterpart and yields [None]. *)
Definition onDOMContentLoaded (e : Env) (now : Q) (s : ClockState)
  : option ClockState :=
  let fps :=
    match fpsInput e with
    | None => Some (appliedFps s)
    | Some (Fin v) => Some (if Qeq_bool v 0 then DEFAULT_FPS else v)
    | Some NaN => Some DEFAULT_FPS
    | Some _ => None
    end in
  match fps with
  | Some v =>
      let s1 := set_appliedFps v s in
      let s2 := set_lastTickUpdateMs 0
                  (set_tickAccumMs 0 (set_tickCount 0%Z s1)) in
      Some (updateUi e now s2)
  | None => None
  end.

(** ** Sessions *)

(** The commands of the engine: the frame callback and the five buttons. *)
Inductive Op : Type :=
| OpFrame
| OpPlay
| OpStop
| OpReset
| OpSkip (amount : Num) (unit : string) (direction : Num)
| OpApply.

Definition step (e : Env) (now : Q) (op : Op) (s : ClockState)
  : ClockState * list PlayerCall :=
  match op with
  | OpFrame => (tick e now s, [])
  | OpPlay => play e now s
  | OpStop => stop e now s
  | OpReset => reset e now s
  | OpSkip amount unit direction => skipBy e now amount unit direction s
  | OpApply => (fst (commitAppliedFps e now s), [])
  end.

(** [reachable t s]: the engine is in state [s] after a handler that ran at
    clock reading [t].  The clock starts non-negative and never runs back. *)
Inductive reachable : Q -> ClockState -> Prop :=
| reach_load (e : Env) (t : Q) (s : ClockState) :
    0 <= t ->
    onDOMContentLoaded e t initial = Some s ->
    reachable t s
| reach_step (e : Env) (t now : Q) (op : Op) (s : ClockState) :
    reachable t s ->
    t <= now ->
    reachable now (fst (step e now op s)).

(** A run of frames at the given clock readings. *)
Definition advances (e : Env) (ts : list Q) (s : ClockState) : ClockState :=
  fold_left (fun acc t => updateUi e t acc) ts s.

(** Clock readings that never run back, starting from [t0]. *)
Fixpoint monotone (t0 : Q) (ts : list Q) : Prop :=
  match ts with
  | [] => True
  | t :: ts' => t0 <= t /\ monotone t ts'
  end.

(** ** The invariant of reachable states *)


(** The baseline the delta is measured from: [now] itself when there is none. *)
Definition baseline (now : Q) (s : ClockState) : Q :=
  if Qeq_bool (lastTickUpdateMs s) 0 then now else lastTickUpdateMs s.


(** ** Sessions as lists of events *)

Record Event : Type := mkEvent {
  ev_env : Env;
  ev_now : Q;
  ev_op : Op
}.

Fixpoint run (evs : list Event) (s : ClockState) : ClockState :=
  match evs with
  | [] => s
  | ev :: evs' => run evs' (fst (step (ev_env ev) (ev_now ev) (ev_op ev) s))
  end.

Fixpoint chronological (t : Q) (evs : list Event) : Prop :=
  match evs with
  | [] => True
  | ev :: evs' => t <= ev_now ev /\ chronological (ev_now ev) evs'
  end.

Fixpoint endTime (t : Q) (evs : list Event) : Q :=
  match evs with
  | [] => t
  | ev :: evs' => endTime (ev_now ev) evs'
  end.

(** The state the page-load handler leaves; [initial] stands in when the
    starting rate is infinite. *)
Definition loaded (e : Env) (t : Q) : ClockState :=
  match onDOMContentLoaded e t initial with
  | Some s => s
  | None => initial
  end.

(** ** Notions the specification uses *)

(** Wall time covered by frames at readings [ts] after a baseline [t0]. *)
Definition span (t0 : Q) (ts : list Q) : Q := last ts t0 - t0.



(** A rate [commitRate] must reject: not finite, or not positive. *)
Definition invalidRate (v : Num) : Prop :=
  match v with
  | Fin q => q <= 0
  | _ => True
  end.

(** A skip amount that is not finite or is negative. *)
Definition invalidAmount (amount : Num) : Prop :=
  match amount with
  | Fin a => a < 0
  | _ => True
  end.

(** A direction that is neither [-1] nor [+1]. *)
Definition invalidDirection (direction : Num) : Prop :=
  match direction with
  | Fin d => ~ d == -1 /\ ~ d == 1
  | _ => True
  end.


(** ** Sample pages and sessions *)

(** A page without a player whose rate field reads 60. *)
Definition page60 : Env :=
  {| player := None; calculatedTime := true; fpsInput := Some (Fin 60) |}.

(** The same page with one half typed into the rate field. *)
Definition pageHalf : Env :=
  {| player := None; calculatedTime := true; fpsInput := Some (Fin (1 # 2)) |}.

(** A ten-second video that has played to its end. *)
Definition endedVideo : Player :=
  {| getCurrentTime := Returns (Fin 10); getDuration := Returns (Fin 10);
     seekTo := true; playVideo := true; pauseVideo := true |}.

Definition pageVideo : Env :=
  {| player := Some endedVideo; calculatedTime := true;
     fpsInput := Some (Fin 60) |}.

(** Loaded at 5 ms, reset pressed at 100 ms. *)
Definition afterReset : ClockState :=
  run [mkEvent page60 100 OpReset] (loaded page60 5).

(** Rate one half applied and the clocks reset at 1 ms. *)
Definition halfRate : ClockState :=
  run [mkEvent pageHalf 1 OpApply; mkEvent pageHalf 1 OpReset] (loaded page60 1).

(** Reset at 100 ms over the ten-second video, frames until 20100 ms. *)
Definition pastTheEnd : ClockState :=
  run [mkEvent pageVideo 100 OpReset; mkEvent pageVideo 10100 OpFrame;
       mkEvent pageVideo 20100 OpFrame] (loaded pageVideo 5).

(** Five seconds run at rate 60, then stopped. *)
Definition stoppedAtFive : ClockState :=
  run [mkEvent page60 100 OpReset; mkEvent page60 5100 OpFrame;
       mkEvent page60 5100 OpStop] (loaded page60 5).

(** ** The display helpers of [app.js] *)

(** [String(n)] for an integer [n]. *)
Definition stringOfInt (n : Z) : string :=
  DecimalString.NilZero.string_of_int (Z.to_int n).

(** [s.padStart(2, '0')] *)
Definition padStart2 (s : string) : string :=
  match String.length s with
  | O => "00"
  | S O => ("0" ++ s)%string
  | _ => s
  end.

(** [pad(n)] *)
Definition pad (n : Z) : string := padStart2 (stringOfInt n).

(** The three numbers [formatMs] prints; [%] is the truncating remainder. *)
Definition totalHundredths (ms : Q) : Z := Math.floor (ms / 10).

Definition minutesOf (ms : Q) : Z := (totalHundredths ms / 6000)%Z.

Definition secondsOf (ms : Q) : Z :=
  (Z.rem (totalHundredths ms) 6000 / 100)%Z.

Definition hundredthsOf (ms : Q) : Z := Z.rem (totalHundredths ms) 100.

(** [formatMs(ms)]: minutes, seconds and hundredths, colon-separated. *)
Definition formatMs (ms : Q) : string :=
  (pad (minutesOf ms) ++ ":" ++ pad (secondsOf ms) ++ ":"
   ++ pad (hundredthsOf ms))%string.

(** [computeTicks(ms, fpsValue)], [fpsValue] being [Number(fpsValue)]; [None]
    when the product is not a finite number. *)
Definition computeTicks (ms : Q) (fpsValue : Num) : option Z :=
  let seconds := ms / 1000 in
  let fps :=
    match fpsValue with
    | Fin v => if Qeq_bool v 0 then Fin DEFAULT_FPS else Fin v
    | NaN => Fin DEFAULT_FPS
    | PInf => PInf
    | NInf => NInf
    end in
  match fps with
  | Fin v => Some (Math.floor (seconds * Math.max 0 v))
  | NInf => Some (Math.floor (seconds * 0))
  | PInf => None
  | NaN => None
  end.

(** What [updateUi] shows as the calculated clock:
    [calcMs = Math.round((tickCount / DEFAULT_FPS) * 1000)], printed by
    [formatMs]. *)
Definition calculatedMs (s : ClockState) : Z :=
  Math.round (inject_Z (tickCount s) / DEFAULT_FPS * 1000).

Definition calculatedClock (s : ClockState) : string :=
  formatMs (inject_Z (calculatedMs s)).

(** ** The moving average of the other variant of [app.js]

    The variant with the player-relative display keeps, besides the engine
    state, the samples of the last ten seconds and shows their average.  This
    is the block of its [updateUi] that does so. *)

(** One entry [{ t, deltaMs }] of [deltaSamples]. *)
Record Sample : Type := mkSample {
  sample_t : Q;
  sample_deltaMs : Z
}.

Definition windowMs : Q := 10000.

(** [playerMs]: the player's position in ms when it answers with a finite
    number that is not negative, the rounded wall clock otherwise. *)
Definition playerMs (e : Env) (elapsedMs : Q) : Z :=
  match player e with
  | Some p =>
      match getCurrentTime p with
      | Returns (Fin secs) =>
          if Qle_bool 0 secs then Math.round (secs * 1000)
          else Math.round elapsedMs
      | _ => Math.round elapsedMs
      end
  | None => Math.round elapsedMs
  end.

(** [while (deltaSamples.length && (now - deltaSamples[0].t > windowMs))
    deltaSamples.shift()] *)
Fixpoint evict (now : Q) (samples : list Sample) : list Sample :=
  match samples with
  | [] => []
  | x :: rest =>
      if Qlt_bool windowMs (now - sample_t x) then evict now rest
      else samples
  end.

(** [deltaSamples.reduce((s, v) => s + v.deltaMs, 0)] *)
Definition sumDeltas (samples : list Sample) : Z :=
  fold_left (fun acc v => (acc + sample_deltaMs v)%Z) samples 0%Z.

(** [avgMs]: the rounded mean, 0 for no samples. *)
Definition avgMs (samples : list Sample) : Z :=
  match samples with
  | [] => 0%Z
  | _ :: _ =>
      Math.round (inject_Z (sumDeltas samples)
                  / inject_Z (Z.of_nat (List.length samples)))
  end.

(** The block as a whole: push the current sample, evict the old ones,
    average.  Returns the new [deltaSamples] and [avgMs]. *)
Definition recordDelta (e : Env) (now elapsedMs : Q) (samples : list Sample)
  : list Sample * Z :=
  let sample :=
    mkSample now (Math.round (elapsedMs - inject_Z (playerMs e elapsedMs))) in
  let kept := evict now (samples ++ [sample]) in
  (kept, avgMs kept).

(** The text shown after the label: the sign and the formatted magnitude. *)
Definition deltaText (avg : Z) : string :=
  ((if Z.ltb 0 avg then "+" else if Z.ltb avg 0 then "-" else "")
   ++ formatMs (inject_Z (Z.abs avg)))%string.

(** Samples in the order they were taken, none later than [now]. *)
Fixpoint inOrder (now : Q) (samples : list Sample) : Prop :=
  match samples with
  | [] => True
  | x :: rest =>
      sample_t x <= now /\
      Forall (fun y => sample_t x <= sample_t y) rest /\
      inOrder now rest
  end.

(** The player gives no usable position: it is missing, fails, or answers
    with something that is not a finite number at or above 0. *)
Definition noPosition (e : Env) : Prop :=
  match player e with
  | Some p =>
      match getCurrentTime p with
      | Returns (Fin secs) => secs < 0
      | _ => True
      end
  | None => True
  end.

(** ** The tick-rate converter of [FiveM_Tick_Converter.js]

    The [TickConverter] object: a tick rate, the tick duration derived from
    it, and a tick count from which the time is computed on demand.  A method
    that throws does so before it writes anything; its outcome is then
    [TypeError] and the object is as it was.  Calls that only refresh the
    display are left out. *)

Inductive Outcome (A : Type) : Type :=
| Done (a : A)
| TypeError.

Arguments Done {A} a.
Arguments TypeError {A}.

Module TickConverter.

Definition DEFAULT_TICK_RATE : Q := 20.

Record State : Type := mkConverter {
  tickRate : Q;
  tickDurationMs : Q;
  ticks : Z;
  startTimeMs : option Num
}.

(** [detectInitialTickRate()]; the argument is [Number(el.value)] when the
    rate field exists and can be read. *)
Definition detectInitialTickRate (field : option Num) : Q :=
  match field with
  | Some (Fin v) => if Qlt_bool 0 v then v else DEFAULT_TICK_RATE
  | _ => DEFAULT_TICK_RATE
  end.

(** The options of [init]; a field is [None] when it is absent or not a
    number. *)
Record InitOptions : Type := mkInitOptions {
  opt_tickRate : option Num;
  opt_startTicks : option Num;
  opt_startTimeMs : option Num
}.

(** [init(options)].  A rate that is zero or not finite makes the tick
    duration infinite or zero and has no rational counterpart: [None]. *)
Definition init (initialTickRate : Q) (options : InitOptions)
  : option State :=
  let rate :=
    match opt_tickRate options with
    | Some (Fin r) => if Qeq_bool r 0 then None else Some r
    | Some _ => None
    | None => Some initialTickRate
    end in
  match rate with
  | None => None
  | Some r =>
      let duration := 1000 / r in
      let fromTicks :=
        match opt_startTicks options with
        | Some (Fin n) => Math.floor n
        | _ => 0%Z
        end in
      let count :=
        match opt_startTimeMs options with
        | Some (Fin t) => Math.floor (t / duration)
        | _ => fromTicks
        end in
      let start :=
        match opt_startTimeMs options with
        | Some (Fin t) => if Qeq_bool t 0 then None else Some (Fin t)
        | Some NaN => None
        | other => other
        end in
      Some (mkConverter r duration count start)
  end.

(** The state the script leaves when it has loaded. *)
Definition loaded (field : option Num) : option State :=
  let initialTickRate := detectInitialTickRate field in
  init initialTickRate
       (mkInitOptions (Some (Fin initialTickRate)) (Some (Fin 0)) None).

(** The getter of [timeMs]: [Math.floor(this.ticks * this.tickDurationMs)]. *)
Definition timeMs (c : State) : Z :=
  Math.floor (inject_Z (ticks c) * tickDurationMs c).

(** The options of [setTickRate]: [preserveTime] as given ([None] when
    absent), [preserveTicks] as a truth value. *)
Record RateOptions : Type := mkRateOptions {
  preserveTime : option bool;
  preserveTicks : bool
}.

Definition defaults : RateOptions := mkRateOptions None false.

Definition clampTicks (n : Z) : Z := if Z.ltb n 0 then 0%Z else n.

(** [setTickRate(newRate, options)] *)
Definition setTickRate (c : State) (newRate : Num) (options : RateOptions)
  : Outcome State :=
  match newRate with
  | Fin r =>
      if Qle_bool r 0 then TypeError
      else
        let keepTime0 :=
          match preserveTime options with
          | Some false => false
          | _ => true
          end in
        let keepTicks := preserveTicks options in
        let keepTime := if keepTicks then false else keepTime0 in
        let oldTime := timeMs c in
        let duration := 1000 / r in
        let count :=
          if keepTime then Math.floor (inject_Z oldTime / duration)
          else clampTicks (ticks c) in
        Done (mkConverter r duration count (startTimeMs c))
  | _ => TypeError
  end.

(** [updateFromTimeMs(timeMs)] *)
Definition updateFromTimeMs (c : State) (time : Num) : Outcome State :=
  match time with
  | Fin t =>
      Done (mkConverter (tickRate c) (tickDurationMs c)
              (Math.floor (inject_Z (Math.floor t) / tickDurationMs c))
              (startTimeMs c))
  | _ => TypeError
  end.

(** [updateFromTicks(ticks)] *)
Definition updateFromTicks (c : State) (count : Num) : Outcome State :=
  match count with
  | Fin n =>
      Done (mkConverter (tickRate c) (tickDurationMs c)
              (clampTicks (Math.floor n)) (startTimeMs c))
  | _ => TypeError
  end.

(** [addTicks(deltaTicks)] *)
Definition addTicks (c : State) (deltaTicks : Num) : Outcome State :=
  match deltaTicks with
  | Fin d =>
      Done (mkConverter (tickRate c) (tickDurationMs c)
              (clampTicks (ticks c + Math.floor d)) (startTimeMs c))
  | _ => TypeError
  end.

(** [addTimeMs(deltaMs)] *)
Definition addTimeMs (c : State) (deltaMs : Num) : Outcome State :=
  match deltaMs with
  | Fin d =>
      let newTime := (timeMs c + Math.floor d)%Z in
      updateFromTimeMs c (Fin (inject_Z newTime))
  | _ => TypeError
  end.

(** The setter of [timeMs]. *)
Definition setTimeMs (c : State) (value : Num) : Outcome State :=
  match value with
  | Fin v =>
      Done (mkConverter (tickRate c) (tickDurationMs c)
              (clampTicks
                 (Math.floor (inject_Z (Math.floor v) / tickDurationMs c)))
              (startTimeMs c))
  | _ => TypeError
  end.


(** [formatMsAsClock(ms)]: hours, minutes and seconds. *)
Definition formatMsAsClock (ms : Num) : string :=
  let ms' :=
    match ms with
    | Fin v => if Qlt_bool v 0 then 0 else v
    | _ => 0
    end in
  let totalSeconds := Math.floor (ms' / 1000) in
  let hours := (totalSeconds / 3600)%Z in
  let minutes := (Z.rem totalSeconds 3600 / 60)%Z in
  let seconds := Z.rem totalSeconds 60 in
  (padStart2 (stringOfInt hours) ++ ":" ++ padStart2 (stringOfInt minutes)
   ++ ":" ++ padStart2 (stringOfInt seconds))%string.

(** The handler of the apply button, [applyValue(raw)] with
    [Number(raw)]: an unusable value is ignored. *)
Definition applyValue (c : State) (raw : Num) : State :=
  match raw with
  | Fin v =>
      if Qle_bool v 0 then c
      else
        match setTickRate c (Fin v) (mkRateOptions (Some true) false) with
        | Done c' => c'
        | TypeError => c
        end
  | _ => c
  end.

End TickConverter.

(** A converter as the script and [setTickRate] leave it: the rate positive
    and the tick duration [1000 / tickRate]. *)
Definition wellFormed (c : TickConverter.State) : Prop :=
  0 < TickConverter.tickRate c /\
  TickConverter.tickDurationMs c == 1000 / TickConverter.tickRate c.

(** * Properties *)

(** ** Arithmetic of the tick reduction *)

Lemma Qlt_bool_iff (a b : Q) : Qlt_bool a b = true <-> a < b.
Proof.
  unfold Qlt_bool. rewrite negb_true_iff.
  destruct (Qle_bool b a) eqn:E.
  - apply Qle_bool_iff in E. split; [discriminate | intros; lra].
  - split; [intros _ | reflexivity].
    destruct (Qlt_le_dec a b) as [H | H]; [exact H |].
    apply Qle_bool_iff in H. congruence.
Qed.

Lemma Qle_bool_false (a b : Q) : Qle_bool a b = false -> b < a.
Proof.
  intros E. destruct (Qlt_le_dec b a) as [H | H]; [exact H |].
  apply Qle_bool_iff in H. congruence.
Qed.

Lemma Qeq_bool_false (a b : Q) : Qeq_bool a b = false -> ~ a == b.
Proof.
  intros E H. apply Qeq_bool_iff in H. congruence.
Qed.

(** Case analysis on the branches of the handlers. *)
Ltac fields :=
  cbn [accumulatedMs lastStartMs running rafId appliedFps lastShownTick
       tickCount tickAccumMs lastTickUpdateMs
       set_accumulatedMs set_lastStartMs set_running set_rafId
       set_appliedFps set_lastShownTick set_tickCount set_tickAccumMs
       set_lastTickUpdateMs] in *.

Ltac split_ifs :=
  repeat match goal with
    | |- context [if ?b then _ else _] =>
        lazymatch b with
        | context [if _ then _ else _] => fail
        | _ => destruct b eqn:?
        end
    end.

Ltac split_advance :=
  unfold updateUi, refreshCalculated, advanceTicks, baseline, msPerTick;
  fields; split_ifs; fields.

Ltac order_facts :=
  repeat match goal with
    | H : Qle_bool _ _ = true |- _ => apply Qle_bool_iff in H
    | H : Qle_bool _ _ = false |- _ => apply Qle_bool_false in H
    | H : Qlt_bool _ _ = true |- _ => apply Qlt_bool_iff in H
    | H : Qeq_bool _ _ = true |- _ => apply Qeq_bool_iff in H
    | H : Qeq_bool _ _ = false |- _ => apply Qeq_bool_false in H
    end.

Lemma max1_pos (r : Q) : 1 <= Math.max 1 r.
Proof. unfold Math.max. apply Q.le_max_l. Qed.

Lemma msPerTick_pos (s : ClockState) : 0 < msPerTick s.
Proof.
  unfold msPerTick. pose proof (max1_pos (appliedFps s)) as H.
  apply Qlt_shift_div_l; lra.
Qed.


Lemma msPerTick_nominal (s : ClockState) :
  1 <= appliedFps s -> msPerTick s == 1000 / appliedFps s.
Proof.
  intros Hr. unfold msPerTick, Math.max.
  rewrite (Q.max_r 1 (appliedFps s) Hr). reflexivity.
Qed.

(** One integer division removes every whole tick from the accumulator. *)
Lemma floor_reduce (a m : Q) :
  0 < m -> 0 <= a ->
  0 <= a - inject_Z (Qfloor (a / m)) * m < m /\ (0 <= Qfloor (a / m))%Z.
Proof.
  intros Hm Ha.
  assert (E : a / m * m == a) by (field; lra).
  pose proof (Qfloor_le (a / m)) as Hlo.
  pose proof (Qlt_floor (a / m)) as Hhi.
  rewrite inject_Z_plus in Hhi. change (inject_Z 1) with 1 in Hhi.
  repeat split; try nra.
  assert (H0 : 0 <= a / m) by (apply Qle_shift_div_l; lra).
  change 0%Z with (Qfloor (inject_Z 0)). apply Qfloor_resp_le. exact H0.
Qed.

Lemma floor_small (a m : Q) :
  0 < m -> 0 <= a -> a < m -> Qfloor (a / m) = 0%Z.
Proof.
  intros Hm Ha Hlt.
  assert (H0 : 0 <= a / m) by (apply Qle_shift_div_l; lra).
  assert (H1 : a / m < 1) by (apply Qlt_shift_div_r; lra).
  pose proof (Qfloor_le (a / m)) as Hlo.
  pose proof (Qlt_floor (a / m)) as Hhi.
  rewrite inject_Z_plus in Hhi. change (inject_Z 1) with 1 in Hhi.
  assert (A : (Qfloor (a / m) < 1)%Z).
  { rewrite Zlt_Qlt. change (inject_Z 1) with 1. lra. }
  assert (B : (0 <= Qfloor (a / m))%Z).
  { change 0%Z with (Qfloor (inject_Z 0)). apply Qfloor_resp_le. exact H0. }
  lia.
Qed.



(** ** What [updateUi] does to each variable *)

Lemma updateUi_frame (e : Env) (now : Q) (s : ClockState) :
  let s' := updateUi e now s in
  accumulatedMs s' = accumulatedMs s /\ lastStartMs s' = lastStartMs s /\
  running s' = running s /\ rafId s' = rafId s /\
  appliedFps s' = appliedFps s.
Proof. split_advance; repeat split; congruence. Qed.

Lemma updateUi_msPerTick (e : Env) (now : Q) (s : ClockState) :
  msPerTick (updateUi e now s) = msPerTick s.
Proof.
  unfold msPerTick.
  destruct (updateUi_frame e now s) as (_ & _ & _ & _ & ->). reflexivity.
Qed.

Lemma updateUi_stopped (e : Env) (now : Q) (s : ClockState) :
  running s = false ->
  let s' := updateUi e now s in
  tickCount s' = tickCount s /\ tickAccumMs s' = tickAccumMs s /\
  lastTickUpdateMs s' = 0.
Proof.
  intros Hr. split_advance; try congruence; repeat split; reflexivity.
Qed.

(** While running: the delta since the baseline enters the accumulator and
    every whole tick in it moves to [tickCount]. *)
Lemma updateUi_running (e : Env) (now : Q) (s : ClockState) :
  running s = true ->
  0 <= tickAccumMs s + (now - baseline now s) ->
  let acc := tickAccumMs s + (now - baseline now s) in
  let n := Math.floor (acc / msPerTick s) in
  let s' := updateUi e now s in
  lastTickUpdateMs s' = now /\
  tickCount s' = (tickCount s + n)%Z /\
  tickAccumMs s' == acc - inject_Z n * msPerTick s.
Proof.
  intros Hr Hacc. pose proof (msPerTick_pos s) as Hm.
  unfold Math.floor. revert Hacc Hm.
  split_advance; try congruence; intros Hacc Hm; order_facts;
    repeat split; try reflexivity;
    try (rewrite floor_small by assumption; first [lia | simpl; ring]).
Qed.


(** ** Every reachable state satisfies the invariant *)




Lemma clamp_lower (v lo : Q) (hi : Bound) : lo <= clamp v lo hi.
Proof. unfold clamp, Math.max. apply Q.le_max_l. Qed.











Lemma run_reachable (evs : list Event) :
  forall (t : Q) (s : ClockState),
    reachable t s -> chronological t evs ->
    reachable (endTime t evs) (run evs s).
Proof.
  induction evs as [| ev evs IH]; intros t s Hs Hc; simpl.
  - exact Hs.
  - destruct Hc as [Hle Hc]. apply IH; [| exact Hc].
    eapply reach_step; eassumption.
Qed.

Lemma loaded_reachable (e : Env) (t : Q) (s : ClockState) :
  0 <= t -> onDOMContentLoaded e t initial = Some s -> reachable t (loaded e t).
Proof.
  intros Ht E. unfold loaded. rewrite E. eapply reach_load; eassumption.
Qed.

Ltac sample_reachable :=
  match goal with
  | |- reachable _ (run ?evs (loaded ?e ?t)) =>
      apply (run_reachable evs t (loaded e t));
      [ apply (loaded_reachable e t (loaded e t)); [lra | reflexivity]
      | simpl; repeat split; lra ]
  | |- reachable ?t (loaded ?e ?t) =>
      apply (loaded_reachable e t (loaded e t)); [lra | reflexivity]
  end.


Lemma halfRate_reachable : reachable 1 halfRate.
Proof. unfold halfRate. sample_reachable. Qed.


Lemma stoppedAtFive_reachable : reachable 5100 stoppedAtFive.
Proof. unfold stoppedAtFive. sample_reachable. Qed.


(** ** The frame step *)





(** ** Committing a rate *)

Lemma baseline_now (now : Q) (s : ClockState) :
  lastTickUpdateMs s = now -> baseline now s == now.
Proof.
  intros E. unfold baseline. rewrite E.
  destruct (Qeq_bool now 0); reflexivity.
Qed.

(** A frame at the reading the baseline was just set to changes neither the
    tick counter nor the accumulator, provided less than one tick is held. *)
Lemma updateUi_same_instant (e : Env) (now : Q) (s : ClockState) :
  running s = true -> lastTickUpdateMs s = now ->
  0 <= tickAccumMs s -> tickAccumMs s < msPerTick s ->
  let s' := updateUi e now s in
  lastTickUpdateMs s' = now /\ tickCount s' = tickCount s /\
  tickAccumMs s' == tickAccumMs s.
Proof.
  intros Hrun Hl Hlo Hhi. pose proof (msPerTick_pos s) as Hm.
  pose proof (baseline_now now s Hl) as Hb.
  assert (Hacc : 0 <= tickAccumMs s + (now - baseline now s)) by lra.
  destruct (updateUi_running e now s Hrun Hacc) as (El & Et & Ea).
  unfold Math.floor in *. rewrite floor_small in Et, Ea by lra.
  cbv zeta. split; [exact El |]. split; [lia |].
  rewrite Ea, Hb. simpl. ring.
Qed.

(** C4. For every finite positive rate [v] read from the rate field and every
    prior state, [commitAppliedFps] succeeds, sets [appliedFps] to [v], leaves
    [tickAccumMs] at 0, sets [lastTickUpdateMs] to [now] when running and to
    the null marker otherwise, and leaves [tickCount] as it was. *)
Theorem commitAppliedFps_effect (e : Env) (now v : Q) (s : ClockState) :
  fpsInput e = Some (Fin v) -> 0 < v ->
  let r := commitAppliedFps e now s in
  snd r = true /\
  appliedFps (fst r) = v /\
  tickAccumMs (fst r) == 0 /\
  lastTickUpdateMs (fst r) = (if running s then now else 0) /\
  tickCount (fst r) = tickCount s.
Proof.
  intros Hin Hv. unfold commitAppliedFps. rewrite Hin.
  apply Qlt_bool_iff in Hv. rewrite Hv. cbv zeta. unfold fst, snd.
  split; [reflexivity |].
  match goal with |- context [updateUi e now ?x] => set (s3 := x) end.
  destruct (updateUi_frame e now s3) as (_ & _ & _ & _ & Ef).
  split; [rewrite Ef; reflexivity |].
  pose proof (msPerTick_pos s3) as Hm.
  destruct (running s) eqn:Hrun.
  - assert (R3 : running s3 = true) by (unfold s3; fields; exact Hrun).
    assert (L3 : lastTickUpdateMs s3 = now)
      by (unfold s3; fields; rewrite Hrun; reflexivity).
    assert (A3 : tickAccumMs s3 = 0) by reflexivity.
    destruct (updateUi_same_instant e now s3 R3 L3) as (El & Et & Ea);
      rewrite ?A3; try lra.
    rewrite Ea, A3, El, Et. repeat split; reflexivity.
  - assert (R3 : running s3 = false) by (unfold s3; fields; exact Hrun).
    destruct (updateUi_stopped e now s3 R3) as (Et & Ea & El).
    rewrite Ea, El, Et. repeat split; reflexivity.
Qed.

Lemma commitAppliedFps_effect_witness :
  fpsInput pageHalf = Some (Fin (1 # 2)) /\ 0 < 1 # 2 /\
  appliedFps (fst (commitAppliedFps pageHalf 200 afterReset)) = 1 # 2 /\
  tickCount (fst (commitAppliedFps pageHalf 200 afterReset))
    = tickCount afterReset.
Proof.
  assert (Hv : 0 < 1 # 2) by lra.
  split; [reflexivity |]. split; [exact Hv |].
  destruct (commitAppliedFps_effect pageHalf 200 (1 # 2) afterReset
              eq_refl Hv) as (_ & Ef & _ & _ & Et).
  split; [exact Ef | exact Et].
Defined.

(** C7. A rate that is not finite or not positive is rejected: the handler
    returns [false] and the state is the one before the call, field for
    field. *)
Theorem commitAppliedFps_rejects (e : Env) (now : Q) (v : Num)
    (s : ClockState) :
  fpsInput e = Some v -> invalidRate v ->
  commitAppliedFps e now s = (s, false).
Proof.
  intros Hin Hbad. unfold commitAppliedFps. rewrite Hin.
  destruct v as [q | | |]; try reflexivity.
  simpl in Hbad. destruct (Qlt_bool 0 q) eqn:E; [| reflexivity].
  apply Qlt_bool_iff in E. lra.
Qed.

Lemma commitAppliedFps_rejects_witness :
  fpsInput (mkEnv None true (Some (Fin (-30)))) = Some (Fin (-30)) /\
  invalidRate (Fin (-30)) /\
  commitAppliedFps (mkEnv None true (Some (Fin (-30)))) 200 afterReset
    = (afterReset, false).
Proof.
  assert (Hbad : invalidRate (Fin (-30))) by (simpl; lra).
  split; [reflexivity |]. split; [exact Hbad |].
  exact (commitAppliedFps_rejects (mkEnv None true (Some (Fin (-30)))) 200
           (Fin (-30)) afterReset eq_refl Hbad).
Defined.

(** ** Skipping *)

Lemma isDirection_iff (d : Q) : isDirection d = true <-> d == -1 \/ d == 1.
Proof.
  unfold isDirection. rewrite orb_true_iff, !Qeq_bool_iff. reflexivity.
Qed.

(** C8. An amount that is not finite or is negative, or a direction other than
    -1 and +1, makes [skipBy] return at once: the state is the one before the
    call and no call reaches the player. *)
Theorem skipBy_rejects (e : Env) (now : Q) (amount : Num) (unit : string)
    (direction : Num) (s : ClockState) :
  invalidAmount amount \/ invalidDirection direction ->
  skipBy e now amount unit direction s = (s, []).
Proof.
  intros Hbad. unfold skipBy.
  destruct amount as [a | | |]; try reflexivity.
  destruct direction as [d | | |]; try reflexivity.
  destruct (Qlt_bool a 0) eqn:Ea; [reflexivity |].
  destruct (isDirection d) eqn:Ed; [| reflexivity].
  exfalso. apply isDirection_iff in Ed.
  destruct Hbad as [Ha | [Hm Hp]]; simpl in *.
  - apply Qlt_bool_iff in Ha. congruence.
  - tauto.
Qed.

Lemma skipBy_rejects_witness :
  (invalidAmount (Fin (-5)) \/ invalidDirection (Fin 1)) /\
  skipBy pageVideo 20100 (Fin (-5)) "seconds" (Fin 1) pastTheEnd
    = (pastTheEnd, []).
Proof.
  assert (Hbad : invalidAmount (Fin (-5)) \/ invalidDirection (Fin 1))
    by (left; simpl; lra).
  split; [exact Hbad |].
  exact (skipBy_rejects pageVideo 20100 (Fin (-5)) "seconds" (Fin 1)
           pastTheEnd Hbad).
Defined.

(** ** Runs of frames at a fixed rate *)

Lemma last_cons (a d : Q) (l : list Q) : last (a :: l) d = last l a.
Proof.
  revert a d. induction l as [| b l IH]; intros a d; [reflexivity |].
  change (last (a :: b :: l) d) with (last (b :: l) d).
  rewrite (IH b d), (IH b a). reflexivity.
Qed.

(** Over a run of frames the tick clock, counted in milliseconds as whole
    ticks plus the accumulator, gains exactly the wall time covered. *)
Lemma advances_total (e : Env) (ts : list Q) :
  forall s : ClockState,
    running s = true -> 0 < lastTickUpdateMs s ->
    monotone (lastTickUpdateMs s) ts ->
    0 <= tickAccumMs s -> tickAccumMs s < msPerTick s ->
    let s' := advances e ts s in
    appliedFps s' = appliedFps s /\
    0 <= tickAccumMs s' /\ tickAccumMs s' < msPerTick s /\
    inject_Z (tickCount s') * msPerTick s + tickAccumMs s'
      == inject_Z (tickCount s) * msPerTick s + tickAccumMs s
         + span (lastTickUpdateMs s) ts.
Proof.
  induction ts as [| t1 ts IH]; intros s Hrun Hpos Hmono Hlo Hhi.
  - unfold span. simpl. repeat split; try assumption; try reflexivity. ring.
  - destruct Hmono as [Hle Hmono].
    pose proof (msPerTick_pos s) as Hm.
    assert (Hb : baseline t1 s = lastTickUpdateMs s).
    { unfold baseline. destruct (Qeq_bool (lastTickUpdateMs s) 0) eqn:E;
        [| reflexivity].
      apply Qeq_bool_iff in E. lra. }
    assert (Hacc : 0 <= tickAccumMs s + (t1 - baseline t1 s))
      by (rewrite Hb; lra).
    destruct (updateUi_running e t1 s Hrun Hacc) as (El & Et & Ea).
    destruct (updateUi_frame e t1 s) as (_ & _ & Er & _ & Ef).
    pose proof (updateUi_msPerTick e t1 s) as Em.
    destruct (floor_reduce _ _ Hm Hacc) as [[R0 R1] _].
    set (s1 := updateUi e t1 s) in *.
    assert (H1lo : 0 <= tickAccumMs s1) by (rewrite Ea; exact R0).
    assert (H1hi : tickAccumMs s1 < msPerTick s1)
      by (rewrite Ea, Em; exact R1).
    assert (H1run : running s1 = true) by congruence.
    assert (H1pos : 0 < lastTickUpdateMs s1) by (rewrite El; lra).
    assert (H1mono : monotone (lastTickUpdateMs s1) ts)
      by (rewrite El; exact Hmono).
    destruct (IH s1 H1run H1pos H1mono H1lo H1hi) as (If & Ilo & Ihi & Itot).
    change (advances e (t1 :: ts) s) with (advances e ts s1). cbv zeta.
    rewrite Em in Ihi, Itot.
    split; [congruence |]. split; [exact Ilo |]. split; [exact Ihi |].
    rewrite Itot, Ea, Et, El, Hb, inject_Z_plus.
    unfold span. rewrite last_cons. unfold Math.floor. ring.
Qed.








(** ** Reset *)





(** ** Valid skips *)

Lemma durationSec_pos (e : Env) (dsec : Q) :
  durationSec e = Finite dsec -> 0 < dsec.
Proof.
  unfold durationSec.
  destruct (player e) as [p |]; [| discriminate].
  destruct (getDuration p) as [| | [d | | |]]; try discriminate.
  destruct (Qlt_bool 0 d) eqn:E; [| discriminate].
  intros [= <-]. apply Qlt_bool_iff, E.
Qed.

Lemma clamp_upper (v hi : Q) : 0 <= hi -> clamp v 0 (Finite hi) <= hi.
Proof.
  intros H. unfold clamp, Math.max, Math.min_bound.
  apply Q.max_lub; [exact H | apply Q.le_min_l].
Qed.


Lemma skipBy_valid (e : Env) (now a d : Q) (unit : string) (s : ClockState) :
  0 <= a -> d == -1 \/ d == 1 ->
  skipBy e now (Fin a) unit (Fin d) s = skipValid e now a unit d s.
Proof.
  intros Ha Hd. unfold skipBy.
  destruct (Qlt_bool a 0) eqn:E; [apply Qlt_bool_iff in E; lra |].
  apply isDirection_iff in Hd. rewrite Hd. reflexivity.
Qed.

(** The state a valid skip hands to its closing [updateUi], variable by
    variable. *)
Lemma skipValid_state (e : Env) (now a d : Q) (unit : string)
    (s : ClockState) :
  let ticks := String.eqb unit "ticks" in
  let requested := if ticks then a / DEFAULT_FPS else a in
  let current := playerCurrentSec e (elapsed now s / 1000) in
  let target := clamp (current + d * requested) 0 (durationSec e) in
  let actual := target - current in
  let k := Math.round (actual * (if ticks then DEFAULT_FPS else appliedFps s)) in
  let limit :=
    match durationSec e with
    | Finite dsec =>
        Finite (if running s
                then Math.max 0 (dsec * 1000 - (now - lastStartMs s))
                else dsec * 1000)
    | Infinity => Infinity
    end in
  exists s2 : ClockState,
    skipValid e now a unit d s
      = (updateUi e now s2, queryCalls e ++ callSeekTo e target) /\
    running s2 = running s /\ rafId s2 = rafId s /\
    appliedFps s2 = appliedFps s /\ lastStartMs s2 = lastStartMs s /\
    tickAccumMs s2 = tickAccumMs s /\
    lastTickUpdateMs s2 = (if running s then now else 0) /\
    tickCount s2 = (if Z.eqb k 0 then tickCount s
                    else Z.max 0 (tickCount s + k)) /\
    accumulatedMs s2 = clamp (accumulatedMs s + actual * 1000) 0 limit.
Proof.
  cbv zeta. unfold skipValid.
  change (Math.max 1 DEFAULT_FPS) with DEFAULT_FPS.
  eexists. split; [reflexivity |].
  match goal with
  | |- context [Z.eqb ?x 0] => set (k := x); clearbody k
  end.
  destruct (Z.eqb k 0); fields;
    destruct (running s) eqn:Hr, (durationSec e); fields;
    repeat split; congruence.
Qed.








(** ** The wall clock *)




(** ** The specification's scenarios *)

(** At 60 ticks per second a frame 16.67 ms after the baseline yields the
    first tick. *)
Example first_tick_at_60 :
  tickCount (updateUi page60 (100 + (1667 # 100)) afterReset) = 1%Z.
Proof. vm_compute. reflexivity. Qed.

(** Skipping 120 ticks forward without a player moves the wall clock by
    exactly 2000 ms and the tick counter by exactly 120. *)
Example skip_120_ticks :
  let s' := fst (skipBy page60 6000 (Fin 120) "ticks" (Fin 1) stoppedAtFive) in
  elapsed 6000 s' - elapsed 6000 stoppedAtFive == 2000 /\
  (tickCount s' - tickCount stoppedAtFive)%Z = 120%Z.
Proof. vm_compute. split; reflexivity. Qed.

(** With a ten-second video at position 9, five seconds forward seek to 10 and
    count as one second: 60 ticks at rate 60, not 300. *)
Example skip_clamped_at_duration :
  let video :=
    {| getCurrentTime := Returns (Fin 9); getDuration := Returns (Fin 10);
       seekTo := true; playVideo := true; pauseVideo := true |} in
  let page :=
    {| player := Some video; calculatedTime := true;
       fpsInput := Some (Fin 60) |} in
  let r := skipBy page 6000 (Fin 5) "seconds" (Fin 1) stoppedAtFive in
  snd r = [CallGetCurrentTime; CallGetDuration; CallSeekTo 10] /\
  (tickCount (fst r) - tickCount stoppedAtFive)%Z = 60%Z.
Proof. vm_compute. split; reflexivity. Qed.

(** * Further properties of the engine *)

(** ** Stop and play *)

Lemma advances_stopped (e : Env) (ts : list Q) :
  forall s : ClockState,
    running s = false ->
    let s' := advances e ts s in
    running s' = false /\ accumulatedMs s' = accumulatedMs s /\
    lastStartMs s' = lastStartMs s /\ rafId s' = rafId s /\
    appliedFps s' = appliedFps s /\
    tickCount s' = tickCount s /\ tickAccumMs s' = tickAccumMs s.
Proof.
  unfold advances.
  induction ts as [| t1 ts IH]; intros s Hr; simpl; [repeat split; exact Hr |].
  destruct (updateUi_frame e t1 s) as (Ea & Es & Er & Eraf & Ef).
  destruct (updateUi_stopped e t1 s Hr) as (Et & Eacc & _).
  assert (Hr1 : running (updateUi e t1 s) = false) by congruence.
  destruct (IH _ Hr1) as (Ir & Ia & Is & Iraf & If & It & Iacc).
  repeat split; congruence.
Qed.

Lemma stop_effect (e : Env) (now : Q) (s : ClockState) :
  let s' := fst (stop e now s) in
  running s' = false /\ accumulatedMs s' == elapsed now s /\
  lastStartMs s' = lastStartMs s /\ appliedFps s' = appliedFps s /\
  tickCount s' = tickCount s /\ tickAccumMs s' = tickAccumMs s.
Proof.
  cbv zeta. unfold stop, fst.
  match goal with |- context [updateUi e now ?x] => set (s1 := x) end.
  assert (R1 : running s1 = false)
    by (unfold s1; destruct (running s) eqn:E; fields; congruence).
  destruct (updateUi_frame e now s1) as (Ea & Es & Er & _ & Ef).
  destruct (updateUi_stopped e now s1 R1) as (Et & Eacc & _).
  rewrite Ea, Es, Er, Ef, Et, Eacc. unfold elapsed, s1.
  destruct (running s) eqn:E; fields; rewrite ?E;
    repeat split; try reflexivity; ring.
Qed.


(** Stop banks the live segment and freezes both clocks: whatever the state,
    after [stop] at reading [now] and any frames that follow, the engine is not
    running, the wall clock reads at every later instant what it read at
    [now], and [tickCount] and [tickAccumMs] are those from before the stop
    (the time since the last frame is not converted to ticks). *)
Theorem stop_freezes_clocks (e e' : Env) (now later : Q) (ts : list Q)
    (s : ClockState) :
  let s' := advances e' ts (fst (stop e now s)) in
  running s' = false /\
  elapsed later s' == elapsed now s /\
  tickCount s' = tickCount s /\
  tickAccumMs s' = tickAccumMs s.
Proof.
  cbv zeta.
  destruct (stop_effect e now s) as (Sr & Sa & _ & _ & St & Sacc).
  destruct (advances_stopped e' ts _ Sr) as (Ir & Ia & _ & _ & _ & It & Iacc).
  split; [exact Ir |]. unfold elapsed at 1. rewrite Ir, Ia, It, Iacc, Sa.
  repeat split; try assumption. ring.
Qed.





(** ** The frame request *)

(** In every reachable state a frame request is held exactly while the engine
    runs: play and reset request one, stop cancels it, and nothing else
    touches it. *)
Theorem frame_request_iff_running (t : Q) (s : ClockState) :
  reachable t s -> rafId s = running s.
Proof.
  induction 1 as [e t s Ht Hload | e t now op s _ IH Hle].
  - revert Hload. unfold onDOMContentLoaded.
    destruct (match fpsInput e with
              | None => _ | Some (Fin v) => _ | Some NaN => _ | Some _ => _
              end) as [v |]; [| discriminate].
    intros [= <-].
    match goal with
    | |- context [updateUi e t ?x] =>
        destruct (updateUi_frame e t x) as (_ & _ & -> & -> & _)
    end.
    reflexivity.
  - destruct op as [| | | | amount unit direction |]; unfold step, fst.
    + unfold tick.
      destruct (updateUi_frame e now s) as (_ & _ & Er & Eraf & _).
      destruct (running (updateUi e now s)) eqn:E; fields; congruence.
    + unfold play.
      match goal with
      | |- context [updateUi e now ?x] =>
          destruct (updateUi_frame e now x) as (_ & _ & -> & -> & _)
      end.
      destruct (running s) eqn:E; fields; congruence.
    + unfold stop.
      match goal with
      | |- context [updateUi e now ?x] =>
          destruct (updateUi_frame e now x) as (_ & _ & -> & -> & _)
      end.
      destruct (running s) eqn:E; fields; congruence.
    + unfold reset.
      match goal with
      | |- context [updateUi e now ?x] =>
          destruct (updateUi_frame e now x) as (_ & _ & -> & -> & _)
      end.
      reflexivity.
    + unfold skipBy.
      destruct amount as [a | | |]; try exact IH.
      destruct direction as [d | | |]; try exact IH.
      destruct (_ || _); [exact IH |].
      destruct (skipValid_state e now a d unit s)
        as (s2 & -> & Er & Eraf & _).
      unfold fst.
      destruct (updateUi_frame e now s2) as (_ & _ & -> & -> & _).
      congruence.
    + unfold commitAppliedFps.
      destruct (fpsInput e) as [[v | | |] |]; try exact IH.
      destruct (Qlt_bool 0 v); [| exact IH]. unfold fst.
      match goal with
      | |- context [updateUi e now ?x] =>
          destruct (updateUi_frame e now x) as (_ & _ & -> & -> & _)
      end.
      fields. exact IH.
Qed.

Lemma frame_request_iff_running_witness :
  reachable 5100 stoppedAtFive /\ rafId stoppedAtFive = false /\
  running stoppedAtFive = false.
Proof.
  split; [exact stoppedAtFive_reachable |].
  pose proof (frame_request_iff_running 5100 stoppedAtFive
                stoppedAtFive_reachable) as H.
  split; [rewrite H |]; reflexivity.
Defined.

(** Neither a frame nor applying a rate, accepted or rejected, moves the wall
    clock: at every instant it reads what it read before. *)
Theorem wall_clock_ignores_frames_and_rates (e : Env) (now later : Q)
    (s : ClockState) :
  elapsed later (tick e now s) = elapsed later s /\
  elapsed later (fst (commitAppliedFps e now s)) = elapsed later s.
Proof.
  split; unfold elapsed.
  - unfold tick.
    destruct (updateUi_frame e now s) as (Ea & Es & Er & _ & _).
    destruct (running (updateUi e now s)) eqn:E; fields;
      rewrite Ea, Es, ?E, <- ?Er, ?E; reflexivity.
  - unfold commitAppliedFps.
    destruct (fpsInput e) as [[v | | |] |]; try reflexivity.
    destruct (Qlt_bool 0 v); [| reflexivity]. unfold fst.
    match goal with
    | |- context [updateUi e now ?x] =>
        destruct (updateUi_frame e now x) as (-> & -> & -> & _ & _)
    end.
    reflexivity.
Qed.

(** ** [computeTicks] *)

Lemma advances_frame (e : Env) (ts : list Q) :
  forall s : ClockState,
    let s' := advances e ts s in
    accumulatedMs s' = accumulatedMs s /\ lastStartMs s' = lastStartMs s /\
    running s' = running s /\ appliedFps s' = appliedFps s.
Proof.
  unfold advances.
  induction ts as [| t1 ts IH]; intros s; simpl; [repeat split |].
  destruct (updateUi_frame e t1 s) as (Ea & Es & Er & _ & Ef).
  destruct (IH (updateUi e t1 s)) as (Ia & Is & Ir & If).
  repeat split; congruence.
Qed.

(** A rate of zero or NaN falls back to the default 60; a negative rate, minus
    infinity included, counts no ticks at all; plus infinity gives no finite
    count. *)
Theorem computeTicks_fallbacks (ms : Q) :
  (forall v : Q, v == 0 -> computeTicks ms (Fin v) = computeTicks ms (Fin 60)) /\
  computeTicks ms NaN = computeTicks ms (Fin 60) /\
  (forall v : Q, v < 0 -> computeTicks ms (Fin v) = Some 0%Z) /\
  computeTicks ms NInf = Some 0%Z /\
  computeTicks ms PInf = None.
Proof.
  assert (Z0 : forall x : Q, x == 0 -> Math.floor (ms / 1000 * x) = 0%Z).
  { intros x Hx. unfold Math.floor.
    rewrite (Qfloor_comp (ms / 1000 * x) (inject_Z 0)); [apply Qfloor_Z |].
    rewrite Hx. simpl. ring. }
  repeat split.
  - intros v Hv. unfold computeTicks. apply Qeq_bool_iff in Hv.
    rewrite Hv. reflexivity.
  - intros v Hv. unfold computeTicks.
    destruct (Qeq_bool v 0) eqn:E; [apply Qeq_bool_iff in E; lra |].
    f_equal. apply Z0. unfold Math.max. apply Q.max_l. lra.
  - unfold computeTicks. f_equal. apply Z0. reflexivity.
Qed.



(** After a reset at a non-zero reading and a run of frames, the wall clock
    reads the time since the reset and [tickCount] is the number of whole
    ticks in it. *)
Lemma frames_after_reset (e e' : Env) (t0 : Q) (ts : list Q)
    (s : ClockState) :
  0 < t0 -> monotone t0 ts ->
  let s' := advances e' ts (fst (reset e t0 s)) in
  let T := elapsed (last ts t0) s' in
  appliedFps s' = appliedFps s /\
  T == last ts t0 - t0 /\
  0 <= T - inject_Z (tickCount s') * msPerTick s /\
  T - inject_Z (tickCount s') * msPerTick s < msPerTick s.
Proof.
  intros Hpos Hmono. cbv zeta.
  unfold reset, fst.
  match goal with |- context [updateUi e t0 ?x] => set (s3 := x) end.
  destruct (updateUi_frame e t0 s3) as (Ea & Es & Er & _ & Ef).
  pose proof (msPerTick_pos s3) as Hm3.
  assert (A3 : tickAccumMs s3 = 0) by reflexivity.
  destruct (updateUi_same_instant e t0 s3 eq_refl eq_refl)
    as (El & Et & Eacc); rewrite ?A3; try lra.
  set (s0 := updateUi e t0 s3) in *.
  assert (F0 : appliedFps s0 = appliedFps s) by (rewrite Ef; reflexivity).
  assert (M0 : msPerTick s0 = msPerTick s)
    by (unfold msPerTick; rewrite F0; reflexivity).
  assert (Hlo0 : 0 <= tickAccumMs s0) by (rewrite Eacc, A3; lra).
  assert (Hhi0 : tickAccumMs s0 < msPerTick s0)
    by (rewrite Eacc, A3, M0; apply msPerTick_pos).
  assert (Hpos0 : 0 < lastTickUpdateMs s0) by (rewrite El; exact Hpos).
  assert (Hmono0 : monotone (lastTickUpdateMs s0) ts)
    by (rewrite El; exact Hmono).
  assert (R0 : running s0 = true) by (rewrite Er; reflexivity).
  destruct (advances_total e' ts s0 R0 Hpos0 Hmono0 Hlo0 Hhi0)
    as (Af & Alo & Ahi & Atot).
  destruct (advances_frame e' ts s0) as (Fa & Fs & Fr & Ff).
  set (s' := advances e' ts s0) in *.
  rewrite M0 in Ahi, Atot. rewrite El, Et, Eacc, A3 in Atot.
  unfold span in Atot.
  change (inject_Z (tickCount s3)) with 0 in Atot.
  assert (ET : elapsed (last ts t0) s' == last ts t0 - t0).
  { unfold elapsed. rewrite Fa, Fs, Fr, Ea, Es, Er. unfold s3. fields. ring. }
  split; [congruence |]. split; [exact ET |].
  rewrite ET. split; nra.
Qed.



(** ** Skipping forth and back *)

Lemma round_whole (x : Q) (n : Z) : x == inject_Z n -> Math.round x = n.
Proof.
  intros E. unfold Math.round.
  rewrite (Qfloor_comp _ (inject_Z n + (1 # 2))) by (rewrite E; reflexivity).
  pose proof (Qfloor_le (inject_Z n + (1 # 2))) as Hlo.
  pose proof (Qlt_floor (inject_Z n + (1 # 2))) as Hhi.
  rewrite inject_Z_plus in Hhi. change (inject_Z 1) with 1 in Hhi.
  assert (A : (Qfloor (inject_Z n + (1 # 2)) < n + 1)%Z).
  { rewrite Zlt_Qlt, inject_Z_plus. change (inject_Z 1) with 1. lra. }
  assert (B : (n <= Qfloor (inject_Z n + (1 # 2)))%Z).
  { rewrite <- (Qfloor_Z n) at 1. apply Qfloor_resp_le. lra. }
  lia.
Qed.




(** ** [formatMs] *)

Lemma totalHundredths_nonneg (ms : Q) : 0 <= ms -> (0 <= totalHundredths ms)%Z.
Proof.
  intros H. unfold totalHundredths, Math.floor.
  assert (H0 : 0 <= ms / 10) by (apply Qle_shift_div_l; lra).
  change 0%Z with (Qfloor (inject_Z 0)). apply Qfloor_resp_le. exact H0.
Qed.

Lemma fields_of_hundredths (th : Z) :
  (0 <= th)%Z ->
  (0 <= th / 6000 /\ 0 <= Z.rem th 6000 / 100 < 60 /\ 0 <= Z.rem th 100 < 100 /\
   th / 6000 * 6000 + Z.rem th 6000 / 100 * 100 + Z.rem th 100 = th)%Z.
Proof.
  intros H. rewrite !Z.rem_mod_nonneg by lia.
  assert (E : (th mod 100 = (th mod 6000) mod 100)%Z).
  { symmetry. apply Z.mod_mod_divide. exists 60%Z. reflexivity. }
  rewrite E. Z.div_mod_to_equations. lia.
Qed.

(** For a time that is not negative the three printed numbers are the minutes
    (unbounded, never wrapped), the seconds below 60 and the hundredths below
    100 of that time, cut to the hundredth: together they give the time back
    to within 10 ms. *)
Theorem formatMs_fields (ms : Q) :
  0 <= ms ->
  (0 <= minutesOf ms)%Z /\
  (0 <= secondsOf ms < 60)%Z /\
  (0 <= hundredthsOf ms < 100)%Z /\
  let shown := (minutesOf ms * 6000 + secondsOf ms * 100 + hundredthsOf ms)%Z in
  inject_Z shown * 10 <= ms /\ ms < (inject_Z shown + 1) * 10.
Proof.
  intros H. pose proof (totalHundredths_nonneg ms H) as Hth.
  destruct (fields_of_hundredths _ Hth) as (Hm & Hs & Hh & Esum).
  unfold minutesOf, secondsOf, hundredthsOf. cbv zeta.
  split; [exact Hm |]. split; [exact Hs |]. split; [exact Hh |].
  rewrite Esum. unfold totalHundredths, Math.floor.
  pose proof (Qfloor_le (ms / 10)) as Hlo.
  pose proof (Qlt_floor (ms / 10)) as Hhi.
  rewrite inject_Z_plus in Hhi. change (inject_Z 1) with 1 in Hhi.
  assert (E : ms / 10 * 10 == ms) by field.
  set (x := ms / 10) in *. set (n := inject_Z (Qfloor x)) in *.
  clearbody n x. split; lra.
Qed.

Lemma formatMs_fields_witness :
  0 <= 754321 /\ (0 <= secondsOf 754321 < 60)%Z /\
  formatMs 754321 = "12:34:32"%string.
Proof.
  assert (H : 0 <= 754321) by lra. split; [exact H |].
  split; [exact (proj1 (proj2 (formatMs_fields 754321 H))) |].
  vm_compute. reflexivity.
Defined.

Lemma pad_two_chars (n : Z) :
  (0 <= n < 100)%Z ->
  exists c1 c2, pad n = String c1 (String c2 EmptyString).
Proof.
  intros H.
  assert (T : forallb
                (fun k => match pad (Z.of_nat k) with
                          | String _ (String _ EmptyString) => true
                          | _ => false
                          end) (seq 0 100) = true)
    by (vm_compute; reflexivity).
  rewrite forallb_forall in T. specialize (T (Z.to_nat n)).
  rewrite Z2Nat.id in T by lia.
  assert (Hin : In (Z.to_nat n) (seq 0 100)) by (apply in_seq; lia).
  specialize (T Hin).
  destruct (pad n) as [| c1 [| c2 [| c3 r]]]; try discriminate.
  exists c1, c2. reflexivity.
Qed.

Lemma pad_inj (a b : Z) :
  (0 <= a < 100)%Z -> (0 <= b < 100)%Z -> pad a = pad b -> a = b.
Proof.
  intros Ha Hb E.
  assert (T : forallb
                (fun i => forallb
                            (fun j => implb
                                        (String.eqb (pad (Z.of_nat i))
                                                    (pad (Z.of_nat j)))
                                        (Nat.eqb i j))
                            (seq 0 100)) (seq 0 100) = true)
    by (vm_compute; reflexivity).
  rewrite forallb_forall in T.
  specialize (T (Z.to_nat a) ltac:(apply in_seq; lia)).
  rewrite forallb_forall in T.
  specialize (T (Z.to_nat b) ltac:(apply in_seq; lia)).
  rewrite !Z2Nat.id in T by lia. rewrite E, String.eqb_refl in T.
  simpl in T. apply Nat.eqb_eq in T. lia.
Qed.

(** Under a hundred minutes the text is eight characters, [MM:SS:HH], and it
    tells hundredths apart: two times print alike exactly when they agree to
    the hundredth of a second. *)
Theorem formatMs_faithful (a b : Q) :
  0 <= a -> a < 6000000 -> 0 <= b -> b < 6000000 ->
  String.length (formatMs a) = 8%nat /\
  (formatMs a = formatMs b <-> totalHundredths a = totalHundredths b).
Proof.
  intros Ha0 Ha1 Hb0 Hb1.
  assert (Hsmall : forall x, 0 <= x -> x < 6000000 ->
                             (0 <= totalHundredths x < 600000)%Z).
  { intros x H0 H1. split; [apply totalHundredths_nonneg, H0 |].
    unfold totalHundredths, Math.floor.
    pose proof (Qfloor_le (x / 10)) as Hlo.
    assert (Hx : x / 10 < 600000) by (apply Qlt_shift_div_r; lra).
    rewrite Zlt_Qlt. change (inject_Z 600000) with 600000. lra. }
  pose proof (Hsmall a Ha0 Ha1) as Ta. pose proof (Hsmall b Hb0 Hb1) as Tb.
  destruct (fields_of_hundredths _ (proj1 Ta)) as (Am & As & Ah & Asum).
  destruct (fields_of_hundredths _ (proj1 Tb)) as (Bm & Bs & Bh & Bsum).
  assert (Am' : (totalHundredths a / 6000 < 100)%Z)
    by (apply Z.div_lt_upper_bound; lia).
  assert (Bm' : (totalHundredths b / 6000 < 100)%Z)
    by (apply Z.div_lt_upper_bound; lia).
  unfold formatMs, minutesOf, secondsOf, hundredthsOf.
  destruct (pad_two_chars _ (conj Am Am')) as (a1 & a2 & Ea).
  destruct (pad_two_chars (Z.rem (totalHundredths a) 6000 / 100) ltac:(lia))
    as (a3 & a4 & Eb).
  destruct (pad_two_chars _ Ah) as (a5 & a6 & Ec).
  destruct (pad_two_chars _ (conj Bm Bm')) as (b1 & b2 & Fa).
  destruct (pad_two_chars (Z.rem (totalHundredths b) 6000 / 100) ltac:(lia))
    as (b3 & b4 & Fb).
  destruct (pad_two_chars _ Bh) as (b5 & b6 & Fc).
  split; [rewrite Ea, Eb, Ec; reflexivity |]. split.
  - intros E. rewrite Ea, Eb, Ec, Fa, Fb, Fc in E. simpl in E.
    injection E as E1 E2 E3 E4 E5 E6.
    assert (P1 : pad (totalHundredths a / 6000)
                 = pad (totalHundredths b / 6000)) by congruence.
    assert (P2 : pad (Z.rem (totalHundredths a) 6000 / 100)
                 = pad (Z.rem (totalHundredths b) 6000 / 100)) by congruence.
    assert (P3 : pad (Z.rem (totalHundredths a) 100)
                 = pad (Z.rem (totalHundredths b) 100)) by congruence.
    apply pad_inj in P1; [| lia | lia].
    apply pad_inj in P2; [| lia | lia].
    apply pad_inj in P3; [| lia | lia].
    lia.
  - intros E. rewrite E. reflexivity.
Qed.

Lemma formatMs_faithful_witness :
  0 <= 754321 /\ 754321 < 6000000 /\ 0 <= 754329 /\ 754329 < 6000000 /\
  formatMs 754321 = formatMs 754329.
Proof.
  assert (H1 : 0 <= 754321) by lra. assert (H2 : 754321 < 6000000) by lra.
  assert (H3 : 0 <= 754329) by lra. assert (H4 : 754329 < 6000000) by lra.
  split; [exact H1 |]. split; [exact H2 |]. split; [exact H3 |].
  split; [exact H4 |].
  apply (proj2 (formatMs_faithful 754321 754329 H1 H2 H3 H4)).
  vm_compute. reflexivity.
Defined.

(** ** The calculated clock *)

(** The calculated clock converts ticks at the fixed base rate of 60, so it
    runs [appliedFps / 60] times as fast as the wall clock: after a reset at a
    non-zero reading and any run of frames at a rate [r >= 1], with the wall
    clock at [T] ms, it shows [T * r / 60] ms to within one base tick and the
    rounding, never ahead by more than half a millisecond. *)
Theorem calculated_clock_scales_with_rate (e e' : Env) (t0 : Q)
    (ts : list Q) (s : ClockState) :
  0 < t0 -> monotone t0 ts -> 1 <= appliedFps s ->
  let s' := advances e' ts (fst (reset e t0 s)) in
  let scaled := elapsed (last ts t0) s' * appliedFps s / DEFAULT_FPS in
  scaled - 1000 / DEFAULT_FPS - (1 # 2) < inject_Z (calculatedMs s') /\
  inject_Z (calculatedMs s') <= scaled + (1 # 2).
Proof.
  intros Hpos Hmono Hrate. cbv zeta.
  destruct (frames_after_reset e e' t0 ts s Hpos Hmono)
    as (_ & _ & Hlo & Hhi).
  set (s' := advances e' ts (fst (reset e t0 s))) in *.
  set (T := elapsed (last ts t0) s') in *.
  pose proof (msPerTick_nominal s Hrate) as Enom.
  unfold calculatedMs, Math.round, DEFAULT_FPS.
  set (n := inject_Z (tickCount s')) in *.
  pose proof (Qfloor_le (n / 60 * 1000 + (1 # 2))) as Flo.
  pose proof (Qlt_floor (n / 60 * 1000 + (1 # 2))) as Fhi.
  rewrite inject_Z_plus in Fhi. change (inject_Z 1) with 1 in Fhi.
  set (c := inject_Z (Qfloor (n / 60 * 1000 + (1 # 2)))) in *.
  assert (Em : n * msPerTick s * appliedFps s == n * 1000)
    by (rewrite Enom; field; lra).
  assert (Em1 : msPerTick s * appliedFps s == 1000)
    by (rewrite Enom; field; lra).
  assert (X : n / 60 * 1000 * 60 == n * 1000) by field.
  assert (Y : T * appliedFps s / 60 * 60 == T * appliedFps s) by field.
  assert (Z1 : 1000 / 60 * 60 == 1000) by field.
  set (x := n / 60 * 1000) in *. set (y := T * appliedFps s / 60) in *.
  set (k := 1000 / 60) in *.
  assert (L : n * 1000 <= T * appliedFps s) by nra.
  assert (U : T * appliedFps s < n * 1000 + 1000) by nra.
  clearbody c x y k. split; lra.
Qed.

Lemma calculated_clock_scales_with_rate_witness :
  0 < 100 /\ monotone 100 [600%Q; 2600%Q] /\ 1 <= appliedFps afterReset /\
  inject_Z (calculatedMs
              (advances page60 [600%Q; 2600%Q]
                 (fst (reset page60 100 afterReset))))
  <= elapsed 2600 (advances page60 [600%Q; 2600%Q]
                     (fst (reset page60 100 afterReset)))
     * appliedFps afterReset / DEFAULT_FPS + (1 # 2).
Proof.
  assert (Hp : 0 < 100) by lra.
  assert (Hm : monotone 100 [600%Q; 2600%Q])
    by (simpl; repeat split; lra).
  assert (Hr : 1 <= appliedFps afterReset) by (vm_compute; discriminate).
  split; [exact Hp |]. split; [exact Hm |]. split; [exact Hr |].
  exact (proj2 (calculated_clock_scales_with_rate page60 page60 100
                  [600%Q; 2600%Q] afterReset Hp Hm Hr)).
Defined.

(** * The moving average of the player-relative display *)

Lemma inOrder_later (now now' : Q) (samples : list Sample) :
  now <= now' -> inOrder now samples -> inOrder now' samples.
Proof.
  intros Hle. induction samples as [| x rest IH]; simpl; [trivial |].
  intros (Hx & Hall & Hrest). repeat split; [lra | exact Hall | auto].
Qed.

Lemma inOrder_push (now : Q) (d : Z) (samples : list Sample) :
  inOrder now samples -> inOrder now (samples ++ [mkSample now d]).
Proof.
  induction samples as [| x rest IH]; simpl.
  - intros _. repeat split; [lra | constructor].
  - intros (Hx & Hall & Hrest). repeat split; [exact Hx | | auto].
    apply Forall_app. split; [exact Hall |].
    constructor; [exact Hx | constructor].
Qed.

Lemma evict_keeps_recent (now : Q) (samples : list Sample) :
  inOrder now samples ->
  inOrder now (evict now samples) /\
  Forall (fun x => now - sample_t x <= windowMs) (evict now samples) /\
  exists dropped, samples = dropped ++ evict now samples.
Proof.
  induction samples as [| x rest IH]; simpl.
  - intros _. repeat split; [constructor | exists []; reflexivity].
  - intros (Hx & Hall & Hrest).
    destruct (Qlt_bool windowMs (now - sample_t x)) eqn:E.
    + destruct (IH Hrest) as (Io & Irec & dropped & Edrop).
      repeat split; [exact Io | exact Irec |].
      exists (x :: dropped). simpl. rewrite <- Edrop. reflexivity.
    + assert (Hage : now - sample_t x <= windowMs).
      { destruct (Qlt_le_dec windowMs (now - sample_t x)) as [H | H];
          [| exact H].
        apply Qlt_bool_iff in H. congruence. }
      repeat split; try assumption; [| exists []; reflexivity].
      constructor; [exact Hage |].
      rewrite Forall_forall in Hall |- *. intros y Hy.
      specialize (Hall y Hy). lra.
Qed.

Lemma evict_keeps_fresh (now : Q) (d : Z) (samples : list Sample) :
  exists older, evict now (samples ++ [mkSample now d])
                = older ++ [mkSample now d].
Proof.
  induction samples as [| x rest IH]; simpl.
  - assert (E : Qlt_bool windowMs (now - now) = false).
    { destruct (Qlt_bool windowMs (now - now)) eqn:E; [| reflexivity].
      apply Qlt_bool_iff in E. unfold windowMs in E. lra. }
    rewrite E. exists []. reflexivity.
  - destruct (Qlt_bool windowMs (now - sample_t x)); [exact IH |].
    exists (x :: rest). reflexivity.
Qed.

(** The samples stay a ten-second window.  If they are in the order taken and
    none is later than [now], then after the block: the list ends with the
    sample just taken and so is never empty, every sample kept is at most
    10000 ms old, only samples from the front were dropped, and the list is
    again in order, ready for any later reading. *)
Theorem recordDelta_keeps_window (e : Env) (now elapsedMs : Q)
    (samples : list Sample) :
  inOrder now samples ->
  let kept := fst (recordDelta e now elapsedMs samples) in
  (exists older d, kept = older ++ [mkSample now d]) /\
  Forall (fun x => now - sample_t x <= windowMs) kept /\
  (exists dropped d, samples ++ [mkSample now d] = dropped ++ kept) /\
  (forall later, now <= later -> inOrder later kept).
Proof.
  intros Hord. unfold recordDelta, fst. cbv zeta.
  set (d := Math.round (elapsedMs - inject_Z (playerMs e elapsedMs))).
  destruct (evict_keeps_recent now _ (inOrder_push now d samples Hord))
    as (Io & Irec & dropped & Edrop).
  destruct (evict_keeps_fresh now d samples) as (older & Eolder).
  split; [exists older, d; exact Eolder |].
  split; [exact Irec |].
  split; [exists dropped, d; exact Edrop |].
  intros later Hle. apply (inOrder_later now later); assumption.
Qed.

Lemma recordDelta_keeps_window_witness :
  inOrder 12000 [mkSample 1000 3; mkSample 2500 (-4); mkSample 11000 0] /\
  Forall (fun x => 12000 - sample_t x <= windowMs)
    (fst (recordDelta page60 12000 11900
            [mkSample 1000 3; mkSample 2500 (-4); mkSample 11000 0])).
Proof.
  assert (H : inOrder 12000
                [mkSample 1000 3; mkSample 2500 (-4); mkSample 11000 0]).
  { simpl. repeat split; try lra; repeat constructor; simpl; lra. }
  split; [exact H |].
  exact (proj1 (proj2 (recordDelta_keeps_window page60 12000 11900 _ H))).
Defined.

Lemma sumDeltas_between (lo hi : Z) (samples : list Sample) :
  Forall (fun x => (lo <= sample_deltaMs x <= hi)%Z) samples ->
  (Z.of_nat (List.length samples) * lo <= sumDeltas samples
   <= Z.of_nat (List.length samples) * hi)%Z.
Proof.
  unfold sumDeltas.
  assert (G : forall l a,
             Forall (fun x => (lo <= sample_deltaMs x <= hi)%Z) l ->
             (a + Z.of_nat (List.length l) * lo
              <= fold_left (fun acc v => (acc + sample_deltaMs v)%Z) l a
              <= a + Z.of_nat (List.length l) * hi)%Z).
  { induction l as [| x l IH]; intros a Hall; simpl fold_left.
    - simpl. lia.
    - inversion Hall as [| ? ? Hx Hl]; subst.
      specialize (IH (a + sample_deltaMs x)%Z Hl).
      change (List.length (x :: l)) with (S (List.length l)).
      rewrite Nat2Z.inj_succ. lia. }
  intros Hall. specialize (G samples 0%Z Hall). lia.
Qed.

Lemma round_mono (x y : Q) : x <= y -> (Math.round x <= Math.round y)%Z.
Proof. intros H. unfold Math.round. apply Qfloor_resp_le. lra. Qed.

Lemma avgMs_between (lo hi : Z) (samples : list Sample) :
  samples <> [] ->
  Forall (fun x => (lo <= sample_deltaMs x <= hi)%Z) samples ->
  (lo <= avgMs samples <= hi)%Z.
Proof.
  intros Hne Hall. pose proof (sumDeltas_between lo hi samples Hall) as Hs.
  destruct samples as [| x rest]; [congruence |].
  unfold avgMs.
  set (n := Z.of_nat (List.length (x :: rest))) in *.
  assert (Hn : (0 < n)%Z)
    by (unfold n; change (List.length (x :: rest)) with (S (List.length rest));
        lia).
  assert (Qn : 0 < inject_Z n)
    by (change 0 with (inject_Z 0); rewrite <- Zlt_Qlt; exact Hn).
  set (sum := sumDeltas (x :: rest)) in *.
  assert (L : inject_Z lo <= inject_Z sum / inject_Z n).
  { apply Qle_shift_div_l; [exact Qn |].
    rewrite <- inject_Z_mult, <- Zle_Qle. lia. }
  assert (U : inject_Z sum / inject_Z n <= inject_Z hi).
  { apply Qle_shift_div_r; [exact Qn |].
    rewrite <- inject_Z_mult, <- Zle_Qle. lia. }
  pose proof (round_mono _ _ L) as A. pose proof (round_mono _ _ U) as B.
  rewrite (round_whole (inject_Z lo) lo (Qeq_refl _)) in A.
  rewrite (round_whole (inject_Z hi) hi (Qeq_refl _)) in B.
  split; assumption.
Qed.

Lemma round_residue (x : Q) :
  Math.round (x - inject_Z (Math.round x)) = 0%Z.
Proof.
  unfold Math.round at 2.
  pose proof (Qfloor_le (x + (1 # 2))) as Hlo.
  pose proof (Qlt_floor (x + (1 # 2))) as Hhi.
  rewrite inject_Z_plus in Hhi. change (inject_Z 1) with 1 in Hhi.
  set (r := inject_Z (Qfloor (x + (1 # 2)))) in *.
  unfold Math.round.
  assert (E : x - r + (1 # 2) == (x - r + (1 # 2)) / 1) by field.
  rewrite (Qfloor_comp _ _ E). apply floor_small; lra.
Qed.

Lemma playerMs_fallback (e : Env) (elapsedMs : Q) :
  noPosition e -> playerMs e elapsedMs = Math.round elapsedMs.
Proof.
  unfold noPosition, playerMs.
  destruct (player e) as [p |]; [| reflexivity].
  destruct (getCurrentTime p) as [| | [secs | | |]]; try reflexivity.
  intros H. destruct (Qle_bool 0 secs) eqn:E; [| reflexivity].
  apply Qle_bool_iff in E. lra.
Qed.

(** The average never leaves the range of what it averages: if the samples
    held and the one being taken all lie between [lo] and [hi], so does the
    average shown. *)
Theorem recordDelta_average_in_range (e : Env) (now elapsedMs : Q)
    (samples : list Sample) (lo hi : Z) :
  Forall (fun x => (lo <= sample_deltaMs x <= hi)%Z) samples ->
  (lo <= Math.round (elapsedMs - inject_Z (playerMs e elapsedMs)) <= hi)%Z ->
  (lo <= snd (recordDelta e now elapsedMs samples) <= hi)%Z.
Proof.
  intros Hall Hnew. unfold recordDelta, snd. cbv zeta.
  set (d := Math.round (elapsedMs - inject_Z (playerMs e elapsedMs))) in *.
  destruct (evict_keeps_fresh now d samples) as (older & Eolder).
  assert (Hsuffix : forall l,
             Forall (fun x => (lo <= sample_deltaMs x <= hi)%Z) l ->
             Forall (fun x => (lo <= sample_deltaMs x <= hi)%Z) (evict now l)).
  { induction l as [| x l IH]; simpl; intros Hl; [constructor |].
    destruct (Qlt_bool windowMs (now - sample_t x)); [| exact Hl].
    inversion Hl; subst. auto. }
  apply avgMs_between.
  - rewrite Eolder. destruct older; discriminate.
  - apply Hsuffix. apply Forall_app. split; [exact Hall |].
    constructor; [exact Hnew | constructor].
Qed.

Lemma recordDelta_average_in_range_witness :
  Forall (fun x => (-4 <= sample_deltaMs x <= 3)%Z)
    [mkSample 1000 3; mkSample 2500 (-4); mkSample 11000 0] /\
  (-4 <= Math.round (11900 - inject_Z (playerMs page60 11900)) <= 3)%Z /\
  (-4 <= snd (recordDelta page60 12000 11900
                [mkSample 1000 3; mkSample 2500 (-4); mkSample 11000 0])
   <= 3)%Z.
Proof.
  assert (H1 : Forall (fun x => (-4 <= sample_deltaMs x <= 3)%Z)
                 [mkSample 1000 3; mkSample 2500 (-4); mkSample 11000 0])
    by (repeat constructor; simpl; lia).
  assert (H2 : (-4 <= Math.round (11900 - inject_Z (playerMs page60 11900))
                <= 3)%Z)
    by (vm_compute; split; discriminate).
  split; [exact H1 |]. split; [exact H2 |].
  exact (recordDelta_average_in_range page60 12000 11900 _ (-4) 3 H1 H2).
Defined.

(** Without a usable player position the display measures nothing: the sample
    taken is 0 whatever the wall clock reads, and as long as every sample held
    is 0 the average is 0 and the text is the unsigned [00:00:00]. *)
Theorem recordDelta_without_player (e : Env) (now elapsedMs : Q)
    (samples : list Sample) :
  noPosition e ->
  Forall (fun x => sample_deltaMs x = 0%Z) samples ->
  let r := recordDelta e now elapsedMs samples in
  Forall (fun x => sample_deltaMs x = 0%Z) (fst r) /\
  snd r = 0%Z /\
  deltaText (snd r) = "00:00:00"%string.
Proof.
  intros Hno Hall. unfold recordDelta, fst, snd. cbv zeta.
  rewrite (playerMs_fallback e elapsedMs Hno), round_residue.
  destruct (evict_keeps_fresh now 0 samples) as (older & Eolder).
  assert (Hsuffix : forall l,
             Forall (fun x => sample_deltaMs x = 0%Z) l ->
             Forall (fun x => sample_deltaMs x = 0%Z) (evict now l)).
  { induction l as [| x l IH]; simpl; intros Hl; [constructor |].
    destruct (Qlt_bool windowMs (now - sample_t x)); [| exact Hl].
    inversion Hl; subst. auto. }
  assert (Hkept : Forall (fun x => sample_deltaMs x = 0%Z)
                    (evict now (samples ++ [mkSample now 0]))).
  { apply Hsuffix. apply Forall_app. split; [exact Hall |].
    constructor; [reflexivity | constructor]. }
  assert (Havg : avgMs (evict now (samples ++ [mkSample now 0])) = 0%Z).
  { assert (B : (0 <= avgMs (evict now (samples ++ [mkSample now 0]))
                 <= 0)%Z).
    { apply avgMs_between.
      - rewrite Eolder. destruct older; discriminate.
      - rewrite Forall_forall in Hkept |- *. intros x Hx.
        rewrite (Hkept x Hx). lia. }
    lia. }
  split; [exact Hkept |]. rewrite Havg. split; reflexivity.
Qed.

Lemma recordDelta_without_player_witness :
  noPosition page60 /\
  Forall (fun x => sample_deltaMs x = 0%Z) [mkSample 11000 0] /\
  snd (recordDelta page60 12000 (23801 # 2) [mkSample 11000 0]) = 0%Z.
Proof.
  assert (H1 : noPosition page60) by exact I.
  assert (H2 : Forall (fun x => sample_deltaMs x = 0%Z) [mkSample 11000 0])
    by (repeat constructor).
  split; [exact H1 |]. split; [exact H2 |].
  exact (proj1 (proj2 (recordDelta_without_player page60 12000 (23801 # 2)
                         [mkSample 11000 0] H1 H2))).
Defined.

(** * The tick-rate converter *)

Lemma Qfloor_bounds (x : Q) :
  inject_Z (Qfloor x) <= x /\ x < inject_Z (Qfloor x) + 1.
Proof.
  split; [apply Qfloor_le |].
  pose proof (Qlt_floor x) as H. rewrite inject_Z_plus in H. exact H.
Qed.

Lemma Qfloor_le_Z (x : Q) (n : Z) : x <= inject_Z n -> (Qfloor x <= n)%Z.
Proof.
  intros H. rewrite <- (Qfloor_Z n). apply Qfloor_resp_le. exact H.
Qed.

Lemma Qfloor_ge_Z (x : Q) (n : Z) : inject_Z n <= x -> (n <= Qfloor x)%Z.
Proof.
  intros H. rewrite <- (Qfloor_Z n) at 1. apply Qfloor_resp_le. exact H.
Qed.

(** Turning a whole time [t] into ticks of length [d] and back into a time
    never gains and loses less than a tick and a millisecond. *)
Lemma quantize_time (t : Z) (d : Q) :
  0 < d ->
  let k := Qfloor (inject_Z t / d) in
  (Qfloor (inject_Z k * d) <= t)%Z /\
  inject_Z t - d - 1 < inject_Z (Qfloor (inject_Z k * d)).
Proof.
  intros Hd. cbv zeta.
  destruct (Qfloor_bounds (inject_Z t / d)) as [Klo Khi].
  set (k := inject_Z (Qfloor (inject_Z t / d))) in *.
  assert (E : inject_Z t / d * d == inject_Z t) by (field; lra).
  assert (A : k * d <= inject_Z t) by nra.
  assert (B : inject_Z t - d < k * d) by nra.
  destruct (Qfloor_bounds (k * d)) as [Flo Fhi].
  split; [apply Qfloor_le_Z; exact A | lra].
Qed.

(** Turning [n] ticks of length [d] into a whole time and back into ticks
    never gains a tick, loses at most one when a tick lasts a millisecond or
    more, and loses none when a tick is a whole number of milliseconds. *)
Lemma requantize_ticks (n : Z) (d : Q) :
  0 < d ->
  let n' := Qfloor (inject_Z (Qfloor (inject_Z n * d)) / d) in
  (n' <= n)%Z /\
  (1 <= d -> (n - 1 <= n')%Z) /\
  (forall k : Z, d == inject_Z k -> n' = n).
Proof.
  intros Hd. cbv zeta.
  destruct (Qfloor_bounds (inject_Z n * d)) as [Tlo Thi].
  set (T := inject_Z (Qfloor (inject_Z n * d))) in *.
  assert (E : T / d * d == T) by (field; lra).
  split; [| split].
  - apply Qfloor_le_Z. apply Qle_shift_div_r; [exact Hd | lra].
  - intros H1. apply Qfloor_ge_Z.
    apply Qle_shift_div_l; [exact Hd |].
    unfold Z.sub. rewrite inject_Z_plus, inject_Z_opp.
    change (inject_Z 1) with 1. nra.
  - intros k Hk.
    assert (ET : T == inject_Z (n * k)).
    { unfold T. rewrite (Qfloor_comp _ (inject_Z (n * k))).
      - rewrite Qfloor_Z. reflexivity.
      - rewrite Hk, inject_Z_mult. reflexivity. }
    rewrite (Qfloor_comp _ (inject_Z n)); [apply Qfloor_Z |].
    rewrite ET, inject_Z_mult, Hk. field. rewrite <- Hk. lra.
Qed.

(** When the script has loaded the converter is well formed, whatever the rate
    field holds, with no ticks and no time; and every method but [init] keeps
    it so: only [setTickRate] changes the rate, to the positive rate asked,
    and the tick duration follows it. *)
Theorem converter_stays_well_formed :
  (forall field : option Num,
      exists c, TickConverter.loaded field = Some c /\ wellFormed c /\
                TickConverter.ticks c = 0%Z /\ TickConverter.timeMs c = 0%Z) /\
  (forall (c c' : TickConverter.State) (r : Num)
          (o : TickConverter.RateOptions),
      TickConverter.setTickRate c r o = Done c' ->
      wellFormed c' /\ r = Fin (TickConverter.tickRate c')) /\
  (forall (c c' : TickConverter.State) (v : Num),
      wellFormed c ->
      TickConverter.updateFromTimeMs c v = Done c' \/
      TickConverter.updateFromTicks c v = Done c' \/
      TickConverter.addTicks c v = Done c' \/
      TickConverter.addTimeMs c v = Done c' \/
      TickConverter.setTimeMs c v = Done c' \/
      TickConverter.applyValue c v = c' ->
      wellFormed c').
Proof.
  split; [| split].
  - intros field.
    assert (Hpos : 0 < TickConverter.detectInitialTickRate field).
    { unfold TickConverter.detectInitialTickRate,
        TickConverter.DEFAULT_TICK_RATE.
      destruct field as [[v | | |] |]; try lra.
      destruct (Qlt_bool 0 v) eqn:E; [apply Qlt_bool_iff, E | lra]. }
    unfold TickConverter.loaded, TickConverter.init. cbn.
    destruct (Qeq_bool (TickConverter.detectInitialTickRate field) 0) eqn:E;
      [apply Qeq_bool_iff in E; lra |].
    eexists. split; [reflexivity |]. unfold wellFormed, TickConverter.timeMs.
    cbn. repeat split. exact Hpos.
  - intros c c' r o. unfold TickConverter.setTickRate.
    destruct r as [q | | |]; try discriminate.
    destruct (Qle_bool q 0) eqn:E; [discriminate |].
    apply Qle_bool_false in E. intros [= <-]. unfold wellFormed. cbn.
    repeat split; try exact E; reflexivity.
  - intros c c' v [Hr Hd] H. unfold wellFormed.
    destruct H as [H | [H | [H | [H | [H | H]]]]]; revert H.
    + unfold TickConverter.updateFromTimeMs.
      destruct v; try discriminate. intros [= <-]. cbn. split; assumption.
    + unfold TickConverter.updateFromTicks.
      destruct v; try discriminate. intros [= <-]. cbn. split; assumption.
    + unfold TickConverter.addTicks.
      destruct v; try discriminate. intros [= <-]. cbn. split; assumption.
    + unfold TickConverter.addTimeMs, TickConverter.updateFromTimeMs.
      destruct v; try discriminate. intros [= <-]. cbn. split; assumption.
    + unfold TickConverter.setTimeMs.
      destruct v; try discriminate. intros [= <-]. cbn. split; assumption.
    + unfold TickConverter.applyValue, TickConverter.setTickRate.
      destruct v as [q | | |]; try (intros <-; split; assumption).
      destruct (Qle_bool q 0) eqn:E; [intros <-; split; assumption |].
      apply Qle_bool_false in E. intros <-. cbn.
      split; [exact E | reflexivity].
Qed.

Lemma floor_inject (z : Z) : Math.floor (inject_Z z) = z.
Proof. apply Qfloor_Z. Qed.

Ltac converter_fields :=
  cbn [TickConverter.tickRate TickConverter.tickDurationMs TickConverter.ticks
       TickConverter.startTimeMs TickConverter.preserveTime
       TickConverter.preserveTicks TickConverter.defaults] in *.

(** The two modes of a rate change.  Keeping the time (the default): the time
    read afterwards is never later than before and earlier by less than one
    new tick and a millisecond.  Keeping the ticks ([preserveTicks], which
    overrides [preserveTime], or [preserveTime: false]): the tick count is the
    old one, raised to 0 if it was negative. *)
Theorem setTickRate_modes (c : TickConverter.State) (r : Q)
    (o : TickConverter.RateOptions) :
  0 < r ->
  exists c',
    TickConverter.setTickRate c (Fin r) o = Done c' /\
    TickConverter.tickRate c' = r /\
    (TickConverter.preserveTicks o = false ->
     TickConverter.preserveTime o <> Some false ->
     (TickConverter.timeMs c' <= TickConverter.timeMs c)%Z /\
     inject_Z (TickConverter.timeMs c) - 1000 / r - 1
       < inject_Z (TickConverter.timeMs c')) /\
    (TickConverter.preserveTicks o = true \/
     TickConverter.preserveTime o = Some false ->
     TickConverter.ticks c' = Z.max 0 (TickConverter.ticks c)).
Proof.
  intros Hr. unfold TickConverter.setTickRate.
  destruct (Qle_bool r 0) eqn:E; [apply Qle_bool_iff in E; lra |].
  eexists. split; [reflexivity |]. split; [reflexivity |].
  assert (Hd : 0 < 1000 / r) by (apply Qlt_shift_div_l; lra).
  split.
  - intros Hticks Htime. rewrite Hticks.
    assert (Hk : match TickConverter.preserveTime o with
                 | Some false => false | _ => true end = true).
    { destruct (TickConverter.preserveTime o) as [[|] |];
        try reflexivity. congruence. }
    rewrite Hk. unfold TickConverter.timeMs at 1 3. converter_fields.
    exact (quantize_time (TickConverter.timeMs c) (1000 / r) Hd).
  - intros [Hticks | Htime]; converter_fields.
    + rewrite Hticks. unfold TickConverter.clampTicks.
      destruct (Z.ltb_spec (TickConverter.ticks c) 0); lia.
    + rewrite Htime.
      destruct (TickConverter.preserveTicks o);
        unfold TickConverter.clampTicks;
        destruct (Z.ltb_spec (TickConverter.ticks c) 0); lia.
Qed.

Lemma setTickRate_modes_witness :
  0 < 20 /\
  exists c',
    TickConverter.setTickRate
      (TickConverter.mkConverter 60 (1000 / 60) 100 None) (Fin 20)
      TickConverter.defaults = Done c' /\
    TickConverter.tickRate c' = 20.
Proof.
  assert (H : 0 < 20) by lra. split; [exact H |].
  destruct (setTickRate_modes
              (TickConverter.mkConverter 60 (1000 / 60) 100 None) 20
              TickConverter.defaults H) as (c' & E & Er & _).
  exists c'. split; assumption.
Defined.

(** Passing through the time is not the identity on ticks.  Applying the rate
    the converter already has, or adding zero milliseconds, replaces the tick
    count by the whole ticks in its whole-millisecond time: never more than
    before, at most one less when the rate is 1000 or lower, and the same when
    a tick is a whole number of milliseconds. *)
Theorem requantizing_may_lose_a_tick (c : TickConverter.State) :
  wellFormed c ->
  exists n' : Z,
    (exists c', TickConverter.setTickRate c (Fin (TickConverter.tickRate c))
                  TickConverter.defaults = Done c' /\
                TickConverter.ticks c' = n') /\
    (exists c', TickConverter.addTimeMs c (Fin 0) = Done c' /\
                TickConverter.ticks c' = n') /\
    (n' <= TickConverter.ticks c)%Z /\
    (TickConverter.tickRate c <= 1000 -> (TickConverter.ticks c - 1 <= n')%Z) /\
    (forall k : Z, TickConverter.tickDurationMs c == inject_Z k ->
                   n' = TickConverter.ticks c).
Proof.
  intros [Hr Hd].
  assert (Hpos : 0 < TickConverter.tickDurationMs c)
    by (rewrite Hd; apply Qlt_shift_div_l; lra).
  destruct (requantize_ticks (TickConverter.ticks c)
              (TickConverter.tickDurationMs c) Hpos) as (Hle & Hge & Hint).
  exists (Qfloor
            (inject_Z (Qfloor (inject_Z (TickConverter.ticks c)
                               * TickConverter.tickDurationMs c))
             / TickConverter.tickDurationMs c)).
  split; [| split; [| split; [exact Hle | split; [| exact Hint]]]].
  - unfold TickConverter.setTickRate.
    destruct (Qle_bool (TickConverter.tickRate c) 0) eqn:E;
      [apply Qle_bool_iff in E; lra |].
    eexists. split; [reflexivity |]. converter_fields.
    unfold Math.floor, TickConverter.timeMs, Math.floor.
    apply Qfloor_comp. apply Qdiv_comp; [reflexivity | symmetry; exact Hd].
  - unfold TickConverter.addTimeMs, TickConverter.updateFromTimeMs.
    eexists. split; [reflexivity |]. converter_fields.
    change (Math.floor 0) with 0%Z. rewrite Z.add_0_r, floor_inject.
    reflexivity.
  - intros Hrate. apply Hge. rewrite Hd.
    apply Qle_shift_div_l; lra.
Qed.

Lemma requantizing_may_lose_a_tick_witness :
  wellFormed (TickConverter.mkConverter 30 (1000 / 30) 1 None) /\
  exists c',
    TickConverter.setTickRate
      (TickConverter.mkConverter 30 (1000 / 30) 1 None) (Fin 30)
      TickConverter.defaults = Done c' /\
    TickConverter.ticks c' = 0%Z.
Proof.
  assert (W : wellFormed (TickConverter.mkConverter 30 (1000 / 30) 1 None))
    by (split; [reflexivity | reflexivity]).
  split; [exact W |].
  destruct (requantizing_may_lose_a_tick _ W)
    as (n' & (c' & E & En) & _).
  exists c'. split; [exact E |].
  revert E. vm_compute. intros [= <-]. reflexivity.
Defined.

(** Tick counts are kept from going negative by [addTicks],
    [updateFromTicks] and the setter of [timeMs], but not by [addTimeMs]:
    taking away more whole milliseconds than the time holds leaves a negative
    tick count. *)
Theorem ticks_negative_only_through_time (c : TickConverter.State) :
  wellFormed c ->
  (forall (v : Num) (c' : TickConverter.State),
      TickConverter.addTicks c v = Done c' \/
      TickConverter.updateFromTicks c v = Done c' \/
      TickConverter.setTimeMs c v = Done c' ->
      (0 <= TickConverter.ticks c')%Z) /\
  (forall d : Q,
      (Math.floor d < - TickConverter.timeMs c)%Z ->
      exists c', TickConverter.addTimeMs c (Fin d) = Done c' /\
                 (TickConverter.ticks c' < 0)%Z).
Proof.
  intros [Hr Hd].
  assert (Hpos : 0 < TickConverter.tickDurationMs c)
    by (rewrite Hd; apply Qlt_shift_div_l; lra).
  assert (Hclamp : forall n, (0 <= TickConverter.clampTicks n)%Z).
  { intros n. unfold TickConverter.clampTicks.
    destruct (Z.ltb_spec n 0); lia. }
  split.
  - intros v c' [H | [H | H]]; revert H;
      unfold TickConverter.addTicks, TickConverter.updateFromTicks,
        TickConverter.setTimeMs;
      destruct v; try discriminate; intros [= <-]; converter_fields;
      apply Hclamp.
  - intros d Hneg.
    unfold TickConverter.addTimeMs, TickConverter.updateFromTimeMs.
    eexists. split; [reflexivity |]. converter_fields. rewrite floor_inject.
    set (t := (TickConverter.timeMs c + Math.floor d)%Z) in *.
    assert (Ht : inject_Z t <= -1).
    { change (-1) with (inject_Z (-1)). rewrite <- Zle_Qle. lia. }
    assert (Hq : inject_Z t / TickConverter.tickDurationMs c < 0).
    { apply Qlt_shift_div_r; [exact Hpos | lra]. }
    destruct (Qfloor_bounds (inject_Z t / TickConverter.tickDurationMs c))
      as [Flo _].
    unfold Math.floor. rewrite Zlt_Qlt. change (inject_Z 0) with 0. lra.
Qed.

Lemma ticks_negative_only_through_time_witness :
  wellFormed (TickConverter.mkConverter 20 (1000 / 20) 2 None) /\
  exists c',
    TickConverter.addTimeMs
      (TickConverter.mkConverter 20 (1000 / 20) 2 None) (Fin (-101))
      = Done c' /\
    (TickConverter.ticks c' < 0)%Z.
Proof.
  assert (W : wellFormed (TickConverter.mkConverter 20 (1000 / 20) 2 None))
    by (split; [reflexivity | reflexivity]).
  split; [exact W |].
  apply (proj2 (ticks_negative_only_through_time _ W) (-101)).
  vm_compute. reflexivity.
Defined.



(** A time that is set and read back is the whole-millisecond time cut to
    whole ticks: never later than what was set, and earlier by less than one
    tick and a millisecond.  The setter of [timeMs] does the same for times
    that are not negative and turns negative ones into 0. *)
Theorem time_set_and_read_back (c : TickConverter.State) (v : Q) :
  wellFormed c ->
  (exists c',
      TickConverter.updateFromTimeMs c (Fin v) = Done c' /\
      (TickConverter.timeMs c' <= Math.floor v)%Z /\
      inject_Z (Math.floor v) - TickConverter.tickDurationMs c - 1
        < inject_Z (TickConverter.timeMs c')) /\
  (exists c',
      TickConverter.setTimeMs c (Fin v) = Done c' /\
      (0 <= v -> TickConverter.updateFromTimeMs c (Fin v) = Done c') /\
      (v < 0 -> TickConverter.ticks c' = 0%Z /\
                TickConverter.timeMs c' = 0%Z)).
Proof.
  intros [Hr Hd].
  assert (Hpos : 0 < TickConverter.tickDurationMs c)
    by (rewrite Hd; apply Qlt_shift_div_l; lra).
  split.
  - unfold TickConverter.updateFromTimeMs. eexists. split; [reflexivity |].
    unfold TickConverter.timeMs. converter_fields.
    exact (quantize_time (Math.floor v) (TickConverter.tickDurationMs c) Hpos).
  - unfold TickConverter.setTimeMs, TickConverter.updateFromTimeMs.
    eexists. split; [reflexivity |].
    unfold TickConverter.clampTicks, TickConverter.timeMs. converter_fields.
    set (q := inject_Z (Math.floor v) / TickConverter.tickDurationMs c).
    split.
    + intros Hv.
      assert (H0 : (0 <= Math.floor v)%Z)
        by (apply Qfloor_ge_Z; exact Hv).
      assert (Hq : 0 <= q).
      { unfold q. apply Qle_shift_div_l; [exact Hpos |].
        rewrite Qmult_0_l. change 0 with (inject_Z 0).
        rewrite <- Zle_Qle. exact H0. }
      assert (Hf : (0 <= Math.floor q)%Z) by (apply Qfloor_ge_Z; exact Hq).
      destruct (Z.ltb_spec (Math.floor q) 0); [lia | reflexivity].
    + intros Hv.
      assert (H0 : (Math.floor v < 0)%Z).
      { destruct (Qfloor_bounds v) as [Flo _]. unfold Math.floor.
        rewrite Zlt_Qlt. change (inject_Z 0) with 0. lra. }
      assert (Hq : q < 0).
      { unfold q. apply Qlt_shift_div_r; [exact Hpos |].
        rewrite Qmult_0_l. change 0 with (inject_Z 0).
        rewrite <- Zlt_Qlt. exact H0. }
      assert (Hf : (Math.floor q < 0)%Z).
      { destruct (Qfloor_bounds q) as [Flo _]. unfold Math.floor.
        rewrite Zlt_Qlt. change (inject_Z 0) with 0. lra. }
      destruct (Z.ltb_spec (Math.floor q) 0); [| lia].
      split; [reflexivity |]. converter_fields.
      unfold Math.floor. rewrite (Qfloor_comp _ (inject_Z 0)) by ring.
      apply Qfloor_Z.
Qed.

Lemma time_set_and_read_back_witness :
  wellFormed (TickConverter.mkConverter 30 (1000 / 30) 0 None) /\
  exists c',
    TickConverter.updateFromTimeMs
      (TickConverter.mkConverter 30 (1000 / 30) 0 None) (Fin 100) = Done c' /\
    (TickConverter.timeMs c' <= Math.floor 100)%Z.
Proof.
  assert (W : wellFormed (TickConverter.mkConverter 30 (1000 / 30) 0 None))
    by (split; [reflexivity | reflexivity]).
  split; [exact W |].
  destruct (proj1 (time_set_and_read_back _ 100 W)) as (c' & E & Hle & _).
  exists c'. split; assumption.
Defined.

(** [formatMsAsClock] shows hours without bound, minutes and seconds below
    60, together the whole seconds in the time; anything that is not a finite
    time at or above 0 shows as [00:00:00]. *)
Theorem formatMsAsClock_fields (ms : Num) :
  (forall v : Q, ms = Fin v -> 0 <= v ->
     exists h m sec : Z,
       TickConverter.formatMsAsClock ms
         = (pad h ++ ":" ++ pad m ++ ":" ++ pad sec)%string /\
       (0 <= h)%Z /\ (0 <= m < 60)%Z /\ (0 <= sec < 60)%Z /\
       (h * 3600 + m * 60 + sec)%Z = Math.floor (v / 1000)) /\
  ((forall v : Q, ms = Fin v -> v < 0) ->
   TickConverter.formatMsAsClock ms = "00:00:00"%string).
Proof.
  split.
  - intros v -> Hv. unfold TickConverter.formatMsAsClock.
    destruct (Qlt_bool v 0) eqn:E; [apply Qlt_bool_iff in E; lra |].
    cbv zeta. set (total := Math.floor (v / 1000)).
    assert (Ht : (0 <= total)%Z).
    { assert (H0 : 0 <= v / 1000) by (apply Qle_shift_div_l; lra).
      apply Qfloor_ge_Z. exact H0. }
    exists (total / 3600)%Z, (Z.rem total 3600 / 60)%Z, (Z.rem total 60).
    split; [reflexivity |].
    rewrite !Z.rem_mod_nonneg by lia.
    assert (E60 : (total mod 60 = (total mod 3600) mod 60)%Z).
    { symmetry. apply Z.mod_mod_divide. exists 60%Z. reflexivity. }
    rewrite E60. Z.div_mod_to_equations. lia.
  - intros Hbad. unfold TickConverter.formatMsAsClock.
    destruct ms as [v | | |]; try (vm_compute; reflexivity).
    specialize (Hbad v eq_refl). apply Qlt_bool_iff in Hbad.
    rewrite Hbad. vm_compute. reflexivity.
Qed.

(** * Two more facts about the engine *)

(** A valid skip never asks the player to seek outside the video: whatever the
    state and whatever the player reports as its position, every seek issued
    is to a time at or above 0 and at or below the duration when the player
    reports one; and a player that can seek is asked exactly that once, after
    the two queries. *)
Theorem skipBy_seeks_inside_video (e : Env) (now a d : Q) (unit : string)
    (s : ClockState) :
  0 <= a -> d == -1 \/ d == 1 ->
  let calls := snd (skipBy e now (Fin a) unit (Fin d) s) in
  (forall x : Q,
      In (CallSeekTo x) calls ->
      0 <= x /\ (forall dsec, durationSec e = Finite dsec -> x <= dsec)) /\
  (forall p : Player,
      player e = Some p -> seekTo p = true ->
      exists x, calls = queryCalls e ++ [CallSeekTo x]).
Proof.
  intros Ha Hd. cbv zeta.
  rewrite (skipBy_valid e now a d unit s Ha Hd).
  destruct (skipValid_state e now a d unit s) as (s2 & -> & _).
  unfold snd.
  set (target := clamp _ 0 (durationSec e)).
  assert (Hlo : 0 <= target) by apply clamp_lower.
  assert (Hhi : forall dsec, durationSec e = Finite dsec -> target <= dsec).
  { intros dsec Hdur. unfold target. rewrite Hdur.
    apply clamp_upper. pose proof (durationSec_pos e dsec Hdur). lra. }
  split.
  - intros x Hin. apply in_app_or in Hin. destruct Hin as [Hin | Hin].
    + exfalso. revert Hin. unfold queryCalls.
      destruct (player e) as [p |]; [| intros []].
      destruct (getCurrentTime p), (getDuration p); simpl;
        intuition discriminate.
    + revert Hin. unfold callSeekTo.
      destruct (player e) as [p |]; [| intros []].
      destruct (seekTo p); [| intros []].
      intros [[= <-] | []]. split; assumption.
  - intros p Hp Hseek. exists target. unfold callSeekTo.
    rewrite Hp, Hseek. reflexivity.
Qed.

Lemma skipBy_seeks_inside_video_witness :
  0 <= 5 /\ (1 == -1 \/ 1 == 1) /\
  snd (skipBy pageVideo 20100 (Fin 5) "seconds" (Fin 1) pastTheEnd)
    = queryCalls pageVideo ++ [CallSeekTo 10].
Proof.
  assert (Ha : 0 <= 5) by lra.
  assert (Hd : 1 == -1 \/ 1 == 1) by (right; reflexivity).
  split; [exact Ha |]. split; [exact Hd |].
  destruct (proj2 (skipBy_seeks_inside_video pageVideo 20100 5 1 "seconds"
                     pastTheEnd Ha Hd) endedVideo eq_refl eq_refl)
    as (x & E).
  rewrite E. revert E. vm_compute. intros [= <-]. reflexivity.
Defined.

(** The applied rate is never zero: the page load replaces a zero or
    unreadable starting value by the default 60, and afterwards only an
    accepted apply writes it, with a positive rate. *)
Theorem appliedFps_never_zero (t : Q) (s : ClockState) :
  reachable t s -> ~ appliedFps s == 0.
Proof.
  induction 1 as [e t s Ht Hload | e t now op s _ IH Hle].
  - revert Hload. unfold onDOMContentLoaded.
    assert (Hfps : forall v,
               match fpsInput e with
               | None => Some (appliedFps initial)
               | Some (Fin v) =>
                   Some (if Qeq_bool v 0 then DEFAULT_FPS else v)
               | Some NaN => Some DEFAULT_FPS
               | Some _ => None
               end = Some v -> ~ v == 0).
    { intros v. destruct (fpsInput e) as [[q | | |] |];
        try discriminate; intros [= <-];
        try (vm_compute; discriminate).
      destruct (Qeq_bool q 0) eqn:E;
        [vm_compute; discriminate | apply Qeq_bool_false, E]. }
    destruct (match fpsInput e with
              | None => _ | Some (Fin v) => _ | Some NaN => _ | Some _ => _
              end) as [v |]; [| discriminate].
    specialize (Hfps v eq_refl). intros [= <-].
    match goal with
    | |- context [updateUi e t ?x] =>
        destruct (updateUi_frame e t x) as (_ & _ & _ & _ & ->)
    end.
    exact Hfps.
  - destruct op as [| | | | amount unit direction |]; unfold step, fst.
    + unfold tick.
      destruct (updateUi_frame e now s) as (_ & _ & _ & _ & Ef).
      destruct (running (updateUi e now s)); fields; rewrite Ef; exact IH.
    + unfold play.
      match goal with
      | |- context [updateUi e now ?x] =>
          destruct (updateUi_frame e now x) as (_ & _ & _ & _ & ->)
      end.
      destruct (running s); exact IH.
    + unfold stop.
      match goal with
      | |- context [updateUi e now ?x] =>
          destruct (updateUi_frame e now x) as (_ & _ & _ & _ & ->)
      end.
      destruct (running s); exact IH.
    + unfold reset.
      match goal with
      | |- context [updateUi e now ?x] =>
          destruct (updateUi_frame e now x) as (_ & _ & _ & _ & ->)
      end.
      exact IH.
    + unfold skipBy.
      destruct amount as [a | | |]; try exact IH.
      destruct direction as [d | | |]; try exact IH.
      destruct (_ || _); [exact IH |].
      destruct (skipValid_state e now a d unit s)
        as (s2 & -> & _ & _ & Ef & _).
      unfold fst.
      destruct (updateUi_frame e now s2) as (_ & _ & _ & _ & ->).
      rewrite Ef. exact IH.
    + unfold commitAppliedFps.
      destruct (fpsInput e) as [[v | | |] |]; try exact IH.
      destruct (Qlt_bool 0 v) eqn:E; [| exact IH]. unfold fst.
      match goal with
      | |- context [updateUi e now ?x] =>
          destruct (updateUi_frame e now x) as (_ & _ & _ & _ & ->)
      end.
      fields. apply Qlt_bool_iff in E. lra.
Qed.

Lemma appliedFps_never_zero_witness :
  reachable 1 halfRate /\ ~ appliedFps halfRate == 0.
Proof.
  split; [exact halfRate_reachable |].
  exact (appliedFps_never_zero 1 halfRate halfRate_reachable).
Defined.
